(** * whatsapp-h2h-otomax: transaction tracking and delivery assurance

    A shallow embedding of the Go sources of the bridge:
    - [internal/repository] (SQLite-backed [TransactionRepository]),
    - [internal/service] ([TransactionService], [WhatsAppService],
      [OtomaxService]) in the repository-backed revision,
    - the earlier in-memory [MessageTracker] revision of the service together
      with the HTTP handler [ForwardTransaction] that is written against it.

    Conventions.
    - A Go [string] is a [string] of bytes; [len] is [String.length].
    - [time.Time] is an instant on the integer time line (nanoseconds), and
      [time.Duration] is a signed 64-bit count of nanoseconds.  The
      comparisons that SQLite makes on the stored times are comparisons
      of these instants.
    - A Go [(T, error)] result is a [Result T]; errors keep the arguments of
      the [fmt.Errorf] call that built them.
    - The whatsmeow client, the HTTP endpoint of the webhook and the faults of
      the database driver are external: they appear as oracles. *)

From Stdlib Require Import ZArith List String Ascii Bool Lia DecimalString
  DecimalPos.
From stdpp Require Import base option list strings gmap fin_maps.
Import ListNotations.

Open Scope Z_scope.

(** ** Go values *)

Module Go.

(** [time.Time] and [time.Duration]. *)
Definition Time := Z.
Definition Duration := Z.

Definition wrap64 (z : Z) : Z :=
  (z + 2 ^ 63) mod 2 ^ 64 - 2 ^ 63.

Definition Second : Duration := 1000000000.

(** [t.Add(d)], [t.Before(u)], [t.After(u)]. *)
Definition Add (t : Time) (d : Duration) : Time := t + d.
Definition Before (t u : Time) : bool := t <? u.
Definition After (t u : Time) : bool := u <? t.

(** Errors.  Each constructor is one shape of [fmt.Errorf] in the sources:
    a fixed text, a text wrapping another error with [%w], the duplicate
    error of [ProcessTransaction] (its arguments are the transaction id and
    the formatted [SentAt]), the status-code error of [send], and the final
    error of [SendWebhook] (attempt count and the last error;
    [DeliveryFailedNil] is the same call when [lastErr] is still [nil]
    because the loop body never ran).  [External] is an error value produced
    by a collaborator. *)
Inductive error : Type :=
| External (msg : string)
| New (msg : string)
| Wrap (msg : string) (inner : error)
| DuplicateTransaction (trxID : string) (sentAt : Time)
| UnexpectedStatus (code : Z)
| DeliveryFailed (attempts : Z) (last : error)
| DeliveryFailedNil (attempts : Z).

Inductive Result (A : Type) : Type :=
| Ok (a : A)
| Err (e : error).
Arguments Ok {A} a.
Arguments Err {A} e.

Definition is_ok {A} (r : Result A) : bool :=
  match r with Ok _ => true | Err _ => false end.

(** [strings.HasPrefix], [strings.Contains], [strings.TrimLeft] with a
    one-byte cutset. *)
Definition HasPrefix (s pre : string) : bool := String.prefix pre s.

Fixpoint Contains (s sub : string) : bool :=
  if String.prefix sub s then true
  else match s with
       | EmptyString => false
       | String _ s' => Contains s' sub
       end.

Fixpoint TrimLeft (s : string) (c : ascii) : string :=
  match s with
  | EmptyString => EmptyString
  | String a s' => if Ascii.eqb a c then TrimLeft s' c else s
  end.

End Go.

(** ** internal/repository: the SQLite table [transactions] *)

Module Repository.
Import Go.

Record TransactionRecord : Type := {
  ID : Z;
  TrxID : string;
  MessageID : string;
  Destination : string;
  DestinationType : string;
  SentAt : Time;
  ExpiresAt : Time;
  CreatedAt : Time
}.

(** The table: its rows in rowid order and the AUTOINCREMENT counter.
    The schema declares [trx_id TEXT NOT NULL UNIQUE]. *)
Record Table : Type := {
  rows : list TransactionRecord;
  seq : Z
}.

Definition empty : Table := {| rows := []; seq := 0 |}.

(** [WHERE expires_at > ?] with [time.Now()] bound to the parameter. *)
Definition not_expired (now : Time) (r : TransactionRecord) : bool :=
  now <? ExpiresAt r.

(** The UNIQUE constraint on [trx_id]: an INSERT is refused when some row,
    expired or not, already holds the same [trx_id]. *)
Definition trx_id_taken (t : Table) (trxID : string) : bool :=
  existsb (fun r => String.eqb (TrxID r) trxID) (rows t).

Definition unique_violation : error :=
  External "UNIQUE constraint failed: transactions.trx_id".

(** [Save]: one INSERT.  [fault] is a failure of the driver (I/O, locked
    database), [now_db] is the CURRENT_TIMESTAMP default of [created_at].
    The caller-supplied [ID] and [CreatedAt] are not among the inserted
    columns. *)
Definition Save (t : Table) (record : TransactionRecord)
    (now_db : Time) (fault : option error) : Table * option error :=
  match fault with
  | Some e => (t, Some e)
  | None =>
      if trx_id_taken t (TrxID record) then (t, Some unique_violation)
      else
        let row := {| ID := seq t + 1;
                      TrxID := TrxID record;
                      MessageID := MessageID record;
                      Destination := Destination record;
                      DestinationType := DestinationType record;
                      SentAt := SentAt record;
                      ExpiresAt := ExpiresAt record;
                      CreatedAt := now_db |} in
        ({| rows := rows t ++ [row]; seq := seq t + 1 |}, None)
  end.

(** [GetByTrxID]: [WHERE trx_id = ? AND expires_at > ? LIMIT 1];
    [sql.ErrNoRows] becomes [(nil, nil)]. *)
Definition GetByTrxID (t : Table) (trxID : string)
    (now : Time) (fault : option error) : Result (option TransactionRecord) :=
  match fault with
  | Some e => Err e
  | None =>
      Ok (find (fun r => String.eqb (TrxID r) trxID && not_expired now r)
               (rows t))
  end.

(** [ORDER BY sent_at DESC]: a stable insertion sort, latest first.  SQL
    leaves the order of rows with equal [sent_at] open; here they keep
    their rowid order. *)
Fixpoint insert_desc (r : TransactionRecord) (l : list TransactionRecord)
    : list TransactionRecord :=
  match l with
  | [] => [r]
  | x :: l' =>
      if SentAt x <=? SentAt r then r :: l else x :: insert_desc r l'
  end.

Definition order_by_sent_at_desc (l : list TransactionRecord)
    : list TransactionRecord :=
  fold_right insert_desc [] l.

(** [GetByDestination]:
    [WHERE destination = ? AND expires_at > ? ORDER BY sent_at DESC LIMIT 1]. *)
Definition GetByDestination (t : Table) (destination : string)
    (now : Time) (fault : option error) : Result (option TransactionRecord) :=
  match fault with
  | Some e => Err e
  | None =>
      Ok (head (order_by_sent_at_desc
                  (List.filter (fun r => String.eqb (Destination r) destination
                                         && not_expired now r)
                               (rows t))))
  end.

(** [CleanupExpired]: [DELETE FROM transactions WHERE expires_at <= ?],
    returning the number of rows affected. *)
Definition CleanupExpired (t : Table) (now : Time) (fault : option error)
    : Table * Result Z :=
  match fault with
  | Some e => (t, Err e)
  | None =>
      let kept := List.filter (fun r => negb (ExpiresAt r <=? now)) (rows t) in
      ({| rows := kept; seq := seq t |},
       Ok (Z.of_nat (length (rows t)) - Z.of_nat (length kept)))
  end.

(** [Count]: [SELECT COUNT( * ) FROM transactions WHERE expires_at > ?]. *)
Definition Count (t : Table) (now : Time) (fault : option error) : Result Z :=
  match fault with
  | Some e => Err e
  | None => Ok (Z.of_nat (length (List.filter (not_expired now) (rows t))))
  end.

End Repository.

(** ** pkg/logger and internal/model *)

Module Logger.

Inductive Level : Type := LevelDebug | LevelInfo | LevelWarn | LevelError.

(** One structured log line: level, the [trxid] attribute added by
    [WithTrxID] (if any) and the message.  The remaining key/value
    attributes are not modelled. *)
Record Entry : Type := {
  level : Level;
  trxid : option string;
  msg : string
}.

Definition Info (m : string) : Entry :=
  {| level := LevelInfo; trxid := None; msg := m |}.
Definition Error (m : string) : Entry :=
  {| level := LevelError; trxid := None; msg := m |}.
Definition InfoTrx (trx m : string) : Entry :=
  {| level := LevelInfo; trxid := Some trx; msg := m |}.
Definition WarnTrx (trx m : string) : Entry :=
  {| level := LevelWarn; trxid := Some trx; msg := m |}.
Definition ErrorTrx (trx m : string) : Entry :=
  {| level := LevelError; trxid := Some trx; msg := m |}.

End Logger.

Module Model.
Import Go.

Record Sender : Type := { Phone : string; Name : string }.

Record MessageContent : Type := {
  Type_ : string;
  Content : string;
  Timestamp : Time
}.

Record MessageContext : Type := {
  ChatType : string;
  IsReply : bool;
  OriginalMessageID : string;
  QuotedMessageContent : string
}.

Record WebhookPayload : Type := {
  Event : string;
  Sender_ : Sender;
  Message : MessageContent;
  Context : MessageContext
}.

Record TransactionRequest : Type := {
  ReqDestination : string;
  ReqTrxID : string;
  ReqDescriptions : string;
  ReqInstructions : string
}.

Record TransactionData : Type := {
  DataTrxID : string;
  DataDestination : string;
  DataDestinationType : string;
  DataMessageID : string;
  DataTimestamp : Time
}.

(** [TrackingInfo] of the in-memory tracker. *)
Record TrackingInfo : Type := {
  InfoMessageID : string;
  InfoTrxID : string;
  InfoDestination : string;
  InfoDestinationType : string;
  InfoSentAt : Time;
  InfoExpiresAt : Time
}.

End Model.

(** ** internal/service: [OtomaxService] *)

Module Otomax.
Import Go Model.

Record OtomaxConfig : Type := {
  WebhookURL : string;
  WebhookTimeout : Duration;
  RetryCount : Z
}.

(** What one call of [httpClient.Do] (preceded by [json.Marshal] and
    [http.NewRequestWithContext]) can come back with. *)
Inductive HttpOutcome : Type :=
| MarshalFailed (e : error)
| RequestFailed (e : error)
| TransportFailed (e : error)
| Responded (statusCode : Z).

(** The endpoint as seen by one delivery: the outcome of the request
    issued in loop iteration [attempt]. *)
Definition Endpoint := Z -> HttpOutcome.

(** [send]: [nil] exactly for a response with a 2xx status. *)
Definition send (o : HttpOutcome) : option error :=
  match o with
  | MarshalFailed e => Some (Wrap "failed to marshal payload" e)
  | RequestFailed e => Some (Wrap "failed to create request" e)
  | TransportFailed e => Some (Wrap "failed to send request" e)
  | Responded c =>
      if (c <? 200) || (300 <=? c) then Some (UnexpectedStatus c) else None
  end.

(** [time.Duration(math.Pow(2, float64(e)))]: a power of two is exact in
    float64; it converts exactly to int64 up to [2^62].  Beyond that the
    conversion is implementation-defined in Go (the value below is the one
    produced on amd64). *)
Definition pow2_duration (e : Z) : Duration :=
  if e <? 0 then 0
  else if e <=? 62 then 2 ^ e
  else - 2 ^ 63.

(** [backoff := time.Duration(math.Pow(2, float64(attempt-1))) * time.Second],
    an int64 product. *)
Definition backoff (attempt : Z) : Duration :=
  wrap64 (pow2_duration (attempt - 1) * Second).

(** What a delivery does, in order. *)
Inductive Effect : Type :=
| Slept (d : Duration)
| Posted (attempt : Z) (payload : WebhookPayload)
| Logged (e : Logger.Entry).

(** The body of [for attempt := 0; attempt <= RetryCount; attempt++],
    unrolled [n] more times starting at [attempt]; [lastErr] is the
    variable of the same name. *)
Fixpoint attempts (endpoint : Endpoint) (payload : WebhookPayload)
    (trxID : string) (total : Z) (n : nat) (attempt : Z)
    (lastErr : option error) : option error * list Effect :=
  match n with
  | O =>
      (Some match lastErr with
            | Some e => DeliveryFailed total e
            | None => DeliveryFailedNil total
            end, [])
  | S n' =>
      let pre :=
        if 0 <? attempt
        then [Logged (Logger.WarnTrx trxID "Retrying webhook delivery");
              Slept (backoff attempt)]
        else [] in
      match send (endpoint attempt) with
      | None =>
          (None,
           pre ++ [Posted attempt payload] ++
           (if 0 <? attempt
            then [Logged (Logger.InfoTrx trxID "Webhook delivered")]
            else []))
      | Some err =>
          let '(res, rest) :=
            attempts endpoint payload trxID total n' (attempt + 1) (Some err) in
          (res,
           pre ++ [Posted attempt payload;
                   Logged (Logger.WarnTrx trxID "Webhook delivery failed")]
               ++ rest)
      end
  end.

(** [SendWebhook]: the loop runs for [attempt = 0 .. RetryCount], that is
    [RetryCount + 1] times (not at all for a negative [RetryCount]); the
    final error reports [RetryCount + 1] attempts.  [RetryCount] is a Go
    [int]; the counter does not wrap for any value below the largest. *)
Definition SendWebhook (cfg : OtomaxConfig) (endpoint : Endpoint)
    (payload : WebhookPayload) (trxID : string)
    : option error * list Effect :=
  attempts endpoint payload trxID (RetryCount cfg + 1)
           (Z.to_nat (RetryCount cfg + 1)) 0 None.

Definition posts (tr : list Effect) : list Z :=
  flat_map (fun a => match a with Posted n _ => [n] | _ => [] end) tr.

Definition sleeps (tr : list Effect) : list Duration :=
  flat_map (fun a => match a with Slept d => [d] | _ => [] end) tr.

End Otomax.

(** ** internal/service: [WhatsAppService] *)

Module WhatsApp.
Import Go Model.

(** [types.JID] restricted to its user and server parts. *)
Record JID : Type := { User : string; Server : string }.

Definition DefaultUserServer : string := "s.whatsapp.net".

Definition NewJID (user server : string) : JID :=
  {| User := user; Server := server |}.

Definition JIDString (j : JID) : string :=
  if String.eqb (User j) "" then Server j
  else User j +:+ "@" +:+ Server j.

Record IsOnWhatsAppResponse : Type := { IsIn : bool }.

(** The whatsmeow client, as far as the service calls it.  [ClientSend] is
    [client.SendMessage] and yields the id of the sent message. *)
Record Client : Type := {
  ParseJID : string -> Result JID;
  GetGroupInfo : JID -> option error;
  IsOnWhatsApp : list string -> Result (list IsOnWhatsAppResponse);
  IsConnected : bool;
  ClientSend : JID -> string -> Result string
}.

(** One invocation of [client.SendMessage] and what it returned. *)
Record SendCall : Type := {
  SentTo : JID;
  SentText : string;
  SendOutcome : Result string
}.

Definition len (s : string) : Z := Z.of_nat (String.length s).

(** The class [\d] of Go's regexp: the ASCII digits. *)
Definition is_digit (a : ascii) : bool :=
  ((48 <=? N_of_ascii a) && (N_of_ascii a <=? 57))%N.

(** [regexp.MustCompile(`[^\d]`).ReplaceAllString(phone, "")]: every byte
    outside ['0'..'9'] belongs to a rune matched by the class and goes. *)
Fixpoint remove_non_digits (s : string) : string :=
  match s with
  | EmptyString => EmptyString
  | String a s' =>
      if is_digit a then String a (remove_non_digits s')
      else remove_non_digits s'
  end.

Definition normalizePhoneNumber (phone : string) : string :=
  let phone := remove_non_digits phone in
  let phone := TrimLeft phone "0"%char in
  let phone := if negb (HasPrefix phone "62") then "62" +:+ phone else phone in
  if (len phone <? 11) || (15 <? len phone) then "" else phone.

Definition ValidateDestination (c : Client) (destination : string)
    : Result (JID * string) :=
  if Contains destination "@g.us" then
    match ParseJID c destination with
    | Err e => Err (Wrap "invalid group JID" e)
    | Ok jid =>
        match GetGroupInfo c jid with
        | Some e => Err (Wrap "group not found or bot not a member" e)
        | None => Ok (jid, "group")
        end
    end
  else
    let phone := normalizePhoneNumber destination in
    if String.eqb phone "" then Err (New "invalid phone number format")
    else
      match IsOnWhatsApp c [phone] with
      | Err e => Err (Wrap "failed to check WhatsApp status" e)
      | Ok resp =>
          match resp with
          | [] => Err (New "phone number not registered on WhatsApp")
          | r0 :: _ =>
              if negb (IsIn r0)
              then Err (New "phone number not registered on WhatsApp")
              else Ok (NewJID phone DefaultUserServer, "personal")
          end
      end.

(** [SendMessage]: returns the calls made on the client as well. *)
Definition SendMessage (c : Client) (to : JID) (text : string)
    : list SendCall * Result string :=
  if negb (IsConnected c) then ([], Err (New "WhatsApp client not connected"))
  else
    let r := ClientSend c to text in
    ([{| SentTo := to; SentText := text; SendOutcome := r |}],
     match r with
     | Err e => Err (Wrap "failed to send message" e)
     | Ok id => Ok id
     end).

(** *** Inbound events *)

Record MessageInfo : Type := {
  IsFromMe : bool;
  Chat : JID;
  SenderJID : JID;
  PushName : string;
  EvtTimestamp : Time
}.

(** The protobuf message, as far as the handler reads it; a [nil] pointer
    is [None].  A quoted message is read only one level deep. *)
Record QuotedExtended : Type := { QText : option string }.

Record QuotedMessage : Type := {
  QConversation : option string;
  QExtendedTextMessage : option QuotedExtended
}.

Record ContextInfo : Type := {
  StanzaID : option string;
  Quoted : option QuotedMessage
}.

Record ExtendedTextMessage : Type := {
  Text : option string;
  Context_ : option ContextInfo
}.

Record WaMessage : Type := {
  Conversation : option string;
  Extended : option ExtendedTextMessage
}.

Record MessageEvent : Type := {
  Info : MessageInfo;
  Msg : WaMessage
}.

Record WhatsAppService : Type := {
  client : Client;
  repoSet : bool;
  otomaxService : option Otomax.OtomaxConfig;
  webhookWhitelist : list string
}.

(** [isWhitelisted]: linear search with [==] on strings. *)
Fixpoint isWhitelisted (whitelist : list string) (jid : string) : bool :=
  match whitelist with
  | [] => false
  | whitelisted :: rest =>
      if String.eqb whitelisted jid then true else isWhitelisted rest jid
  end.

(** The gate at the head of [handleIncomingMessage]:
    [if len(s.webhookWhitelist) > 0 { if !s.isWhitelisted(chatJID) { return } }].
    [true] means the event goes on. *)
Definition whitelistGate (whitelist : list string) (chatJID : string) : bool :=
  if (0 <? Z.of_nat (length whitelist))
  then isWhitelisted whitelist chatJID
  else true.

Inductive Handled : Type :=
| IgnoredFromMe
| IgnoredNoRepository
| IgnoredNotWhitelisted
| LookupFailed (e : error)
| Untracked
| NilDereference
| Correlated (payload : WebhookPayload) (trxID : string)
             (delivery : option (option error * list Otomax.Effect)).

(** The message text: [Conversation], else the text of the extended
    message, dereferenced without a nil check. *)
Definition messageContent (m : WaMessage) : option string :=
  match Conversation m with
  | Some c => Some c
  | None =>
      match Extended m with
      | Some ext => Text ext
      | None => Some ""
      end
  end.

Definition quotedContent (q : QuotedMessage) : string :=
  match QConversation q with
  | Some c => c
  | None =>
      match QExtendedTextMessage q with
      | Some ext => match QText ext with Some t => t | None => "" end
      | None => ""
      end
  end.

(** The payload once the tracking record is known: the base payload and
    then the reply fields when the message carries a [ContextInfo]. *)
Definition buildPayload (evt : MessageEvent)
    (trackingRecord : Repository.TransactionRecord) (content : string)
    : WebhookPayload :=
  let base_ctx :=
    {| ChatType := Repository.DestinationType trackingRecord;
       IsReply := false;
       OriginalMessageID := Repository.MessageID trackingRecord;
       QuotedMessageContent := "" |} in
  let ctx :=
    match Extended (Msg evt) with
    | Some ext =>
        match Context_ ext with
        | Some ci =>
            {| ChatType := ChatType base_ctx;
               IsReply := true;
               OriginalMessageID :=
                 match StanzaID ci with
                 | Some id => id
                 | None => OriginalMessageID base_ctx
                 end;
               QuotedMessageContent :=
                 match Quoted ci with
                 | Some q => quotedContent q
                 | None => ""
                 end |}
        | None => base_ctx
        end
    | None => base_ctx
    end in
  {| Event := "message_received";
     Sender_ := {| Phone := User (SenderJID (Info evt));
                   Name := PushName (Info evt) |};
     Message := {| Type_ := "text";
                   Content := content;
                   Timestamp := EvtTimestamp (Info evt) |};
     Context := ctx |}.

(** [handleIncomingMessage]: [now] and [fault] belong to the lookup in the
    repository, [endpoint] to the webhook delivery. *)
Definition handleIncomingMessage (s : WhatsAppService)
    (repo : Repository.Table) (now : Time) (fault : option error)
    (endpoint : Otomax.Endpoint) (evt : MessageEvent)
    : Handled * list Logger.Entry :=
  if IsFromMe (Info evt) then (IgnoredFromMe, [])
  else if negb (repoSet s) then (IgnoredNoRepository, [])
  else
    let chatJID := JIDString (Chat (Info evt)) in
    if negb (whitelistGate (webhookWhitelist s) chatJID)
    then (IgnoredNotWhitelisted,
          [Logger.Info "Message from non-whitelisted JID ignored"])
    else
      match Repository.GetByDestination repo chatJID now fault with
      | Err e => (LookupFailed e, [Logger.Error "Failed to get tracking info"])
      | Ok None => (Untracked, [])
      | Ok (Some trackingRecord) =>
          match messageContent (Msg evt) with
          | None => (NilDereference, [])
          | Some content =>
              let payload := buildPayload evt trackingRecord content in
              let trxID := Repository.TrxID trackingRecord in
              match otomaxService s with
              | None => (Correlated payload trxID None, [])
              | Some cfg =>
                  let '(err, effects) :=
                    Otomax.SendWebhook cfg endpoint payload trxID in
                  (Correlated payload trxID (Some (err, effects)),
                   match err with
                   | Some _ =>
                       [Logger.ErrorTrx trxID "Failed to send webhook"]
                   | None =>
                       [Logger.InfoTrx trxID
                          "Message received and forwarded to webhook"]
                   end)
              end
          end
      end.

End WhatsApp.

(** ** internal/service: [TransactionService] over the repository *)

Module Service.
Import Go Model Repository WhatsApp.

(** What a call can change: the table, the calls made on the chat
    network, the log. *)
Record World : Type := {
  repo : Table;
  sends : list SendCall;
  logs : list Logger.Entry
}.

(** What one call of [ProcessTransaction] reads from outside: the client,
    the four clock readings ([time.Now()] inside [GetByTrxID], [now :=
    time.Now()], CURRENT_TIMESTAMP of the INSERT, [time.Now()] inside
    [Count]) and the driver faults of the three statements. *)
Record Env : Type := {
  wa : Client;
  nowCheck : Time;
  getFault : option error;
  nowSent : Time;
  nowInsert : Time;
  saveFault : option error;
  nowCount : Time;
  countFault : option error
}.

(** The zero [time.Time]; the origin of the time line. *)
Definition zeroTime : Time := 0.

(** The [repository.TransactionRecord] literal of [ProcessTransaction]. *)
Definition newRecord (req : TransactionRequest) (messageID : string)
    (jid : JID) (destType : string) (now : Time) (ttl : Duration)
    : TransactionRecord :=
  {| ID := 0;
     TrxID := ReqTrxID req;
     MessageID := messageID;
     Destination := JIDString jid;
     DestinationType := destType;
     SentAt := now;
     ExpiresAt := Add now ttl;
     CreatedAt := zeroTime |}.

Definition ProcessTransaction (ttl : Duration) (env : Env) (w : World)
    (req : TransactionRequest) : World * Result TransactionData :=
  match GetByTrxID (repo w) (ReqTrxID req) (nowCheck env) (getFault env) with
  | Err e => (w, Err (Wrap "failed to check existing transaction" e))
  | Ok (Some existingTrx) =>
      (w, Err (DuplicateTransaction (ReqTrxID req) (SentAt existingTrx)))
  | Ok None =>
      match ValidateDestination (wa env) (ReqDestination req) with
      | Err e => (w, Err (Wrap "invalid destination" e))
      | Ok (jid, destType) =>
          let message := ReqInstructions req in
          let '(calls, sent) := SendMessage (wa env) jid message in
          match sent with
          | Err e =>
              ({| repo := repo w; sends := sends w ++ calls; logs := logs w |},
               Err (Wrap "failed to send message" e))
          | Ok messageID =>
              let now := nowSent env in
              let record := newRecord req messageID jid destType now ttl in
              let '(repo', saveErr) :=
                Save (repo w) record (nowInsert env) (saveFault env) in
              let saveLog :=
                match saveErr with
                | Some _ =>
                    [Logger.ErrorTrx (ReqTrxID req)
                       "Failed to save transaction to database"]
                | None => []
                end in
              let count := Count repo' (nowCount env) (countFault env) in
              ({| repo := repo';
                  sends := sends w ++ calls;
                  logs := logs w ++ saveLog ++
                          [Logger.InfoTrx (ReqTrxID req) "Transaction sent"] |},
               Ok {| DataTrxID := ReqTrxID req;
                     DataDestination := JIDString jid;
                     DataDestinationType := destType;
                     DataMessageID := messageID;
                     DataTimestamp := now |})
          end
      end
  end.

Definition GetTransactionByDestination (w : World) (destination : string)
    (now : Time) (fault : option error) : Result (option TransactionRecord) :=
  GetByDestination (repo w) destination now fault.

(** One firing of the ticker in [cleanupExpiredPeriodically]. *)
Definition cleanupTick (w : World) (now : Time) (fault : option error) : World :=
  let '(repo', res) := CleanupExpired (repo w) now fault in
  {| repo := repo';
     sends := sends w;
     logs := logs w ++
             match res with
             | Err _ => [Logger.Error "Failed to cleanup expired transactions"]
             | Ok count =>
                 if 0 <? count
                 then [Logger.Info "Cleaned up expired transactions"]
                 else []
             end |}.

End Service.

(** ** Concurrent requests

    Every HTTP request runs [ProcessTransaction] on a goroutine of its
    own.  A call meets the shared world at three places, in this order:
    the SELECT of [GetByTrxID], the send on the chat network, the INSERT of
    [Save] (followed by the log line).  SQLite runs each statement
    atomically, so an execution of several calls is an interleaving of
    these stages. *)

Module Concurrent.
Import Go Model Repository WhatsApp Service.

Inductive Stage : Type :=
| AtCheck
| AtSend
| AtSave (jid : JID) (destType : string) (messageID : string)
| Returned (r : Result TransactionData).

Record Call : Type := {
  callTtl : Duration;
  callEnv : Env;
  callReq : TransactionRequest;
  stage : Stage
}.

Definition at_stage (c : Call) (s : Stage) : Call :=
  {| callTtl := callTtl c; callEnv := callEnv c;
     callReq := callReq c; stage := s |}.

(** One stage of [ProcessTransaction], cut at the statements above. *)
Definition step (w : World) (c : Call) : World * Call :=
  let env := callEnv c in
  let req := callReq c in
  match stage c with
  | AtCheck =>
      match GetByTrxID (repo w) (ReqTrxID req) (nowCheck env) (getFault env) with
      | Err e =>
          (w, at_stage c
                (Returned (Err (Wrap "failed to check existing transaction" e))))
      | Ok (Some existingTrx) =>
          (w, at_stage c
                (Returned (Err (DuplicateTransaction (ReqTrxID req)
                                                     (SentAt existingTrx)))))
      | Ok None => (w, at_stage c AtSend)
      end
  | AtSend =>
      match ValidateDestination (wa env) (ReqDestination req) with
      | Err e => (w, at_stage c (Returned (Err (Wrap "invalid destination" e))))
      | Ok (jid, destType) =>
          let '(calls, sent) :=
            SendMessage (wa env) jid (ReqInstructions req) in
          let w' := {| repo := repo w; sends := sends w ++ calls;
                       logs := logs w |} in
          match sent with
          | Err e =>
              (w', at_stage c (Returned (Err (Wrap "failed to send message" e))))
          | Ok messageID => (w', at_stage c (AtSave jid destType messageID))
          end
      end
  | AtSave jid destType messageID =>
      let now := nowSent env in
      let record := newRecord req messageID jid destType now (callTtl c) in
      let '(repo', saveErr) :=
        Save (repo w) record (nowInsert env) (saveFault env) in
      let saveLog :=
        match saveErr with
        | Some _ =>
            [Logger.ErrorTrx (ReqTrxID req)
               "Failed to save transaction to database"]
        | None => []
        end in
      ({| repo := repo';
          sends := sends w;
          logs := logs w ++ saveLog ++
                  [Logger.InfoTrx (ReqTrxID req) "Transaction sent"] |},
       at_stage c
         (Returned (Ok {| DataTrxID := ReqTrxID req;
                          DataDestination := JIDString jid;
                          DataDestinationType := destType;
                          DataMessageID := messageID;
                          DataTimestamp := now |})))
  | Returned _ => (w, c)
  end.

Record System : Type := {
  world : World;
  calls : list Call
}.

(** The scheduler lets call number [i] run its next stage. *)
Definition sched (sys : System) (i : nat) : System :=
  match calls sys !! i with
  | None => sys
  | Some c =>
      let '(w', c') := step (world sys) c in
      {| world := w'; calls := <[i := c']> (calls sys) |}
  end.

Definition run (sys : System) (schedule : list nat) : System :=
  fold_left sched schedule sys.

Definition start (ttl : Duration) (env : Env) (req : TransactionRequest) : Call :=
  {| callTtl := ttl; callEnv := env; callReq := req; stage := AtCheck |}.

Definition result (c : Call) : option (Result TransactionData) :=
  match stage c with
  | Returned r => Some r
  | _ => None
  end.


End Concurrent.

(** ** The in-memory revision: [MessageTracker] *)

Module Tracker.
Import Go Model.

(** [cache map[string]*model.TrackingInfo], keyed by message id. *)
Record MessageTracker : Type := {
  cache : gmap string TrackingInfo;
  ttl : Duration
}.

Definition NewMessageTracker (ttl : Duration) : MessageTracker :=
  {| cache := ∅; ttl := ttl |}.

(** [Track]: stamps [ExpiresAt] and stores under [info.MessageID]. *)
Definition Track (mt : MessageTracker) (now : Time) (info : TrackingInfo)
    : MessageTracker :=
  let info' := {| InfoMessageID := InfoMessageID info;
                  InfoTrxID := InfoTrxID info;
                  InfoDestination := InfoDestination info;
                  InfoDestinationType := InfoDestinationType info;
                  InfoSentAt := InfoSentAt info;
                  InfoExpiresAt := Add now (ttl mt) |} in
  {| cache := <[InfoMessageID info := info']> (cache mt); ttl := ttl mt |}.

(** [for _, info := range mt.cache]: Go visits the entries in an order of
    its choosing; the enumeration of the finite map stands for it. *)
Definition range (mt : MessageTracker) : list TrackingInfo :=
  (map_to_list (cache mt)).*2.

Definition GetByChat (mt : MessageTracker) (now : Time) (chatJID : string)
    : option TrackingInfo :=
  find (fun info => String.eqb (InfoDestination info) chatJID
                    && Before now (InfoExpiresAt info))
       (range mt).

Definition GetByMessageID (mt : MessageTracker) (now : Time)
    (messageID : string) : option TrackingInfo :=
  match cache mt !! messageID with
  | Some info => if Before now (InfoExpiresAt info) then Some info else None
  | None => None
  end.

Definition GetByTrxID (mt : MessageTracker) (now : Time) (trxID : string)
    : option TrackingInfo :=
  find (fun info => String.eqb (InfoTrxID info) trxID
                    && Before now (InfoExpiresAt info))
       (range mt).

Definition CleanupExpired (mt : MessageTracker) (now : Time)
    : MessageTracker * Z :=
  let kept :=
    filter (fun kv : string * TrackingInfo =>
              After now (InfoExpiresAt kv.2) = false)
           (cache mt) in
  ({| cache := kept; ttl := ttl mt |},
   Z.of_nat (size (cache mt)) - Z.of_nat (size kept)).

(** [Count]: [len(mt.cache)], expired entries included. *)
Definition Count (mt : MessageTracker) : Z :=
  Z.of_nat (size (cache mt)).

End Tracker.

(** ** internal/handler: [TransactionHandler] *)

Module Handler.
Import Go Model.

(** The four query parameters; [Get] yields [""] for an absent one. *)
Record Query : Type := {
  destination : string;
  trxid : string;
  descriptions : string;
  instructions : string
}.

Record Response : Type := {
  StatusCode : Z;
  Status : string;
  RespMessage : string;
  ErrorCode : option string;
  Data : option TransactionData
}.

Definition StatusOK : Z := 200.
Definition StatusBadRequest : Z := 400.
Definition StatusConflict : Z := 409.
Definition StatusInternalServerError : Z := 500.

Definition sendSuccessResponse (data : TransactionData) : Response :=
  {| StatusCode := StatusOK;
     Status := "success";
     RespMessage := "Transaction forwarded successfully";
     ErrorCode := None;
     Data := Some data |}.

Definition sendErrorResponse (code message : string) (statusCode : Z)
    : Response :=
  {| StatusCode := statusCode;
     Status := "error";
     RespMessage := message;
     ErrorCode := Some code;
     Data := None |}.

Definition len (s : string) : Z := Z.of_nat (String.length s).

(** [findSubstring]: [s[i:i+len(substr)] == substr] for some
    [0 <= i <= len(s)-len(substr)]. *)
Definition findSubstring (s substr : string) : bool :=
  existsb (fun i => String.eqb (String.substring i (String.length substr) s)
                               substr)
          (seq 0 (Z.to_nat (len s - len substr + 1))).

(** [contains], with its slice comparisons ([s[:len(s)] != s[:0]] and
    [s[len(s)-len(s):] != s[:0]] both say that [s] is not empty). *)
Definition contains (s substr : string) : bool :=
  (len substr <=? len s)
  && (String.eqb s substr
      || (len substr =? 0)
      || ((0 <? len s) && (0 <? len substr)
          && negb (String.eqb s "") && negb (String.eqb s "")
          && findSubstring s substr)).

Section WithFormats.

(** [t.Format(time.RFC3339)]. *)
Variable formatRFC3339 : Time -> string.

(** [err.Error()]. *)
Fixpoint ErrorText (e : error) : string :=
  match e with
  | External m => m
  | New m => m
  | Wrap m inner => m +:+ ": " +:+ ErrorText inner
  | DuplicateTransaction trxID sentAt =>
      "duplicate transaction: TrxID '" +:+ trxID +:+
      "' already exists and is still being tracked (sent at " +:+
      formatRFC3339 sentAt +:+ ")"
  | UnexpectedStatus c =>
      "unexpected status code: " +:+ NilZero.string_of_int (Z.to_int c)
  | DeliveryFailed n inner =>
      "webhook delivery failed after " +:+ NilZero.string_of_int (Z.to_int n)
      +:+ " attempts: " +:+ ErrorText inner
  | DeliveryFailedNil n =>
      "webhook delivery failed after " +:+ NilZero.string_of_int (Z.to_int n)
      +:+ " attempts: %!w(<nil>)"
  end.

Definition mapErrorCode (e : error) : string :=
  let errMsg := ErrorText e in
  if contains errMsg "invalid destination" then "ERR_INVALID_DESTINATION"
  else if contains errMsg "not connected" then "ERR_WHATSAPP_NOT_CONNECTED"
  else if contains errMsg "group not found" then "ERR_GROUP_NOT_FOUND"
  else if contains errMsg "not registered on WhatsApp"
       then "ERR_DESTINATION_NOT_ON_WHATSAPP"
  else if contains errMsg "failed to send" then "ERR_MESSAGE_SEND_FAILED"
  else "ERR_INTERNAL_SERVER".

(** The service behind the handler: [ProcessTransaction] of the revision
    in use, acting on the tracker. *)
Variable ProcessTransaction :
  Tracker.MessageTracker -> TransactionRequest ->
  Tracker.MessageTracker * Result TransactionData.

(** What one request leaves behind: the response written, the requests
    handed to [ProcessTransaction], the tracker, the log lines. *)
Record Outcome : Type := {
  response : Response;
  processed : list TransactionRequest;
  tracker : Tracker.MessageTracker;
  logged : list Logger.Entry
}.

(** [ForwardTransaction]; [now] is the clock of the tracker lookup. *)
Definition ForwardTransaction (mt : Tracker.MessageTracker) (now : Time)
    (q : Query) : Outcome :=
  let destination := destination q in
  let trxID := trxid q in
  let descriptions := descriptions q in
  let instructions := instructions q in
  if String.eqb destination "" || String.eqb trxID ""
     || String.eqb descriptions "" || String.eqb instructions ""
  then {| response := sendErrorResponse "ERR_MISSING_PARAMETER"
                        "Missing required parameters" StatusBadRequest;
          processed := []; tracker := mt; logged := [] |}
  else if (4096 <? len descriptions) || (4096 <? len instructions)
  then {| response := sendErrorResponse "ERR_INVALID_PARAMETER"
                        "Description or instruction too long (max 4096 chars)"
                        StatusBadRequest;
          processed := []; tracker := mt; logged := [] |}
  else
    match Tracker.GetByTrxID mt now trxID with
    | Some existingTrx =>
        {| response := sendErrorResponse "ERR_DUPLICATE_TRANSACTION"
                         "Transaction with this TrxID already exists and is still being tracked"
                         StatusConflict;
           processed := []; tracker := mt;
           logged := [Logger.WarnTrx trxID "Duplicate transaction detected"] |}
    | None =>
        let req := {| ReqDestination := destination;
                      ReqTrxID := trxID;
                      ReqDescriptions := descriptions;
                      ReqInstructions := instructions |} in
        let '(mt', res) := ProcessTransaction mt req in
        match res with
        | Err e =>
            {| response := sendErrorResponse (mapErrorCode e) (ErrorText e)
                             StatusInternalServerError;
               processed := [req]; tracker := mt';
               logged := [Logger.InfoTrx trxID "New transaction request";
                          Logger.ErrorTrx trxID "Failed to process transaction"] |}
        | Ok data =>
            {| response := sendSuccessResponse data;
               processed := [req]; tracker := mt';
               logged := [Logger.InfoTrx trxID "New transaction request"] |}
        end
    end.

End WithFormats.



End Handler.

(** ** Vocabulary of the statements *)

Module ValidationSpec.
Import Go WhatsApp.

Fixpoint all_digits (s : string) : bool :=
  match s with
  | EmptyString => true
  | String a s' => is_digit a && all_digits s'
  end.

(** The normal form in the words of the specification: drop what is not
    a digit, strip the leading zeros, put ["62"] in front when absent. *)
Definition normalized (destination : string) : string :=
  let digits := remove_non_digits destination in
  let stripped := TrimLeft digits "0"%char in
  if HasPrefix stripped "62" then stripped else "62" +:+ stripped.

(** A client that knows every number and delivers every message. *)
Definition friendlyClient : Client :=
  {| ParseJID := fun s => Ok (NewJID s "g.us");
     GetGroupInfo := fun _ => None;
     IsOnWhatsApp := fun _ => Ok [{| IsIn := true |}];
     IsConnected := true;
     ClientSend := fun _ _ => Ok "M1" |}.

End ValidationSpec.

Module RepositorySpec.
Import Go Repository.

(** The table invariant that the UNIQUE constraint maintains. *)
Definition unique_trx (t : Table) : Prop :=
  NoDup (map TrxID (rows t)).



Definition row (id : Z) (trx mid dest ty : string) (sent expires : Time)
    : TransactionRecord :=
  {| ID := id; TrxID := trx; MessageID := mid; Destination := dest;
     DestinationType := ty; SentAt := sent; ExpiresAt := expires;
     CreatedAt := sent |}.

End RepositorySpec.

Module OtomaxSpec.
Import Go Model Otomax.

(** [a; a+1; ...], [k] numbers. *)
Fixpoint count_from (a : Z) (k : nat) : list Z :=
  match k with
  | O => []
  | S k' => a :: count_from (a + 1) k'
  end.



Definition config (retries : Z) : OtomaxConfig :=
  {| WebhookURL := "http://otomax.example/webhook";
     WebhookTimeout := 10 * Second;
     RetryCount := retries |}.

Definition samplePayload : WebhookPayload :=
  {| Event := "message_received";
     Sender_ := {| Phone := "628111"; Name := "Budi" |};
     Message := {| Type_ := "text"; Content := "OK"; Timestamp := 250 |};
     Context := {| ChatType := "personal"; IsReply := false;
                   OriginalMessageID := "M1"; QuotedMessageContent := "" |} |}.

(** An endpoint that answers 500 until iteration [k] and 200 from then
    on. *)
Definition recoversAt (k : Z) : Endpoint :=
  fun a => if a <? k then Responded 500 else Responded 200.

Definition alwaysDown : Endpoint := fun _ => Responded 500.

End OtomaxSpec.

Module ServiceSpec.
Import Go Model Repository RepositorySpec WhatsApp Service.

(** The same environment with another outcome of the INSERT. *)
Definition with_save (env : Env) (fault : option error) (now : Time) : Env :=
  {| wa := wa env;
     nowCheck := nowCheck env;
     getFault := getFault env;
     nowSent := nowSent env;
     nowInsert := now;
     saveFault := fault;
     nowCount := nowCount env;
     countFault := countFault env |}.

(** The failures that come before a message is out: the duplicate check
    (not answered, or answered with a record), the validation of the
    destination, the send. *)
Definition fails_before_send (env : Env) (w : World)
    (req : TransactionRequest) : Prop :=
  (exists e, GetByTrxID (repo w) (ReqTrxID req) (nowCheck env) (getFault env)
             = Err e)
  \/ (exists r, GetByTrxID (repo w) (ReqTrxID req) (nowCheck env) (getFault env)
                = Ok (Some r))
  \/ (exists e, ValidateDestination (wa env) (ReqDestination req) = Err e)
  \/ (exists jid ty e,
         ValidateDestination (wa env) (ReqDestination req) = Ok (jid, ty)
         /\ snd (SendMessage (wa env) jid (ReqInstructions req)) = Err e).

(** The INSERT of the call is refused: by the driver, or by the UNIQUE
    constraint. *)
Definition save_refused (env : Env) (w : World)
    (req : TransactionRequest) : Prop :=
  saveFault env <> None \/ trx_id_taken (repo w) (ReqTrxID req) = true.


End ServiceSpec.

Module HandlerSpec.
Import Go Model Handler.

Definition missing_field (q : Query) : Prop :=
  destination q = "" \/ trxid q = "" \/ descriptions q = ""
  \/ instructions q = "".

(** Over the bound as the handler measures it: more than 4096 bytes. *)
Definition oversized (q : Query) : Prop :=
  4096 < len (descriptions q) \/ 4096 < len (instructions q).

(** The request handed to the service for a query. *)
Definition request_of (q : Query) : TransactionRequest :=
  {| ReqDestination := destination q;
     ReqTrxID := trxid q;
     ReqDescriptions := descriptions q;
     ReqInstructions := instructions q |}.

(** The tracker holds an entry for [trxID] that has not expired. *)
Definition tracked (mt : Tracker.MessageTracker) (now : Time)
    (trxID : string) : Prop :=
  exists k info,
    Tracker.cache mt !! k = Some info
    /\ InfoTrxID info = trxID
    /\ now < InfoExpiresAt info.

(** Decimal seconds stand for the RFC 3339 text in the examples. *)
Definition plainTime (t : Time) : string :=
  NilZero.string_of_int (Z.to_int t).

(** A service that accepts everything and leaves the tracker alone. *)
Definition acceptAll (mt : Tracker.MessageTracker) (req : TransactionRequest)
    : Tracker.MessageTracker * Result TransactionData :=
  (mt, Ok {| DataTrxID := ReqTrxID req;
             DataDestination := ReqDestination req;
             DataDestinationType := "personal";
             DataMessageID := "M1";
             DataTimestamp := 0 |}).


Definition wellFormed : Query :=
  {| destination := "0812-3456-7890"; trxid := "TRX1";
     descriptions := "top up"; instructions := "please confirm" |}.



End HandlerSpec.

(** Concrete tables for the examples.  Times are in seconds here. *)
Module Scenario.
Import Go Model Repository RepositorySpec WhatsApp Service.



(** Two records for one address, both active at time 250; the second row
    is the later one. *)
Definition chatA : JID := NewJID "628111" "s.whatsapp.net".

Definition older : TransactionRecord :=
  row 1 "TRX-OLD" "M-OLD" "628111@s.whatsapp.net" "personal" 100 1100.

Definition newer : TransactionRecord :=
  row 2 "TRX-NEW" "M-NEW" "628111@s.whatsapp.net" "personal" 200 1200.

Definition twoForA : Table := {| rows := [older; newer]; seq := 2 |}.

Definition bridge : WhatsAppService :=
  {| client := ValidationSpec.friendlyClient;
     repoSet := true;
     otomaxService := None;
     webhookWhitelist := [] |}.

Definition replyOnA : MessageEvent :=
  {| Info := {| IsFromMe := false; Chat := chatA; SenderJID := chatA;
                PushName := "Budi"; EvtTimestamp := 250 |};
     Msg := {| Conversation := Some "OK"; Extended := None |} |}.

Definition deadEndpoint : Otomax.Endpoint :=
  fun _ => Otomax.Responded 500.

(** A world holding one row, an environment without faults in which every
    clock reads [now], and a request. *)
Definition worldWith (r : TransactionRecord) : World :=
  {| repo := {| rows := [r]; seq := ID r |}; sends := []; logs := [] |}.

Definition freshWorld : World :=
  {| repo := Repository.empty; sends := []; logs := [] |}.

Definition calm (now : Time) : Env :=
  {| wa := ValidationSpec.friendlyClient;
     nowCheck := now; getFault := None;
     nowSent := now;
     nowInsert := now; saveFault := None;
     nowCount := now; countFault := None |}.

Definition forward (trx dest : string) : TransactionRequest :=
  {| ReqDestination := dest; ReqTrxID := trx;
     ReqDescriptions := "top up"; ReqInstructions := "please confirm" |}.

(** ["TRX1"] sent to 628111 at time 100 with handle [mid], TTL 1000. *)
Definition trx1 (mid : string) : TransactionRecord :=
  row 1 "TRX1" mid "628111@s.whatsapp.net" "personal" 100 1100.

(** ["TRX2"] sent at time 0 with TTL 1: expired from time 1 on. *)
Definition staleTrx2 : TransactionRecord :=
  row 1 "TRX2" "M-OLD" "628111@s.whatsapp.net" "personal" 0 1.

End Scenario.

Module ConcurrentSpec.
Import Go Model Repository RepositorySpec WhatsApp Service Concurrent.



(** The client of the examples, answering with message id [mid]. *)
Definition clientReturning (mid : string) : Client :=
  {| ParseJID := fun s => Ok (NewJID s "g.us");
     GetGroupInfo := fun _ => None;
     IsOnWhatsApp := fun _ => Ok [{| IsIn := true |}];
     IsConnected := true;
     ClientSend := fun _ _ => Ok mid |}.

Definition envReturning (mid : string) (now : Time) : Env :=
  {| wa := clientReturning mid;
     nowCheck := now; getFault := None;
     nowSent := now;
     nowInsert := now; saveFault := None;
     nowCount := now; countFault := None |}.

(** Two requests for ["TRX1"] arrive together on an empty table. *)
Definition race : System :=
  {| world := Scenario.freshWorld;
     calls := [start 1000 (envReturning "M1" 100)
                 (Scenario.forward "TRX1" "0812-1111-1111");
               start 1000 (envReturning "M2" 100)
                 (Scenario.forward "TRX1" "0812-2222-2222")] |}.


(** The first call to its end, then the second. *)
Definition oneAfterTheOther : list nat := [0; 0; 0; 1; 1; 1]%nat.

End ConcurrentSpec.

(** ** Histories of the table *)

Module RepositoryOps.
Import Go Repository.

(** The statements that change the table: the INSERT of [Save] and the
    DELETE of [CleanupExpired], each with its arguments, its clock reading
    and the fault the driver answers with, if any. *)
Inductive Op : Type :=
| OpSave (record : TransactionRecord) (now_db : Time) (fault : option error)
| OpCleanup (now : Time) (fault : option error).

Definition apply_op (t : Table) (op : Op) : Table :=
  match op with
  | OpSave record now_db fault => fst (Save t record now_db fault)
  | OpCleanup now fault => fst (CleanupExpired t now fault)
  end.

(** The table after a history, starting from the table that
    [NewTransactionRepository] creates. *)
Definition after (history : list Op) : Table :=
  fold_left apply_op history Repository.empty.

(** Row ids grow along the rows. *)
Fixpoint ids_increase (lo : Z) (l : list TransactionRecord) : Prop :=
  match l with
  | [] => True
  | r :: l' => lo < ID r /\ ids_increase (ID r) l'
  end.


End RepositoryOps.

Module ServiceVocabulary.
Import Go Model.

(** The same request with another [Descriptions]. *)
Definition with_descriptions (req : TransactionRequest) (d : string)
    : TransactionRequest :=
  {| ReqDestination := ReqDestination req;
     ReqTrxID := ReqTrxID req;
     ReqDescriptions := d;
     ReqInstructions := ReqInstructions req |}.

End ServiceVocabulary.

Module InboundVocabulary.
Import Go Model WhatsApp.


(** The event carries a [ContextInfo]: it answers (quotes) a message. *)
Definition quotes (evt : MessageEvent) : option ContextInfo :=
  match Extended (Msg evt) with
  | Some ext => Context_ ext
  | None => None
  end.

End InboundVocabulary.

Module InboundScenario.
Import Go Model WhatsApp.



End InboundScenario.

Module DeliveryVocabulary.
Import Go Otomax.

(** The time slept in all. *)
Definition total_sleep (tr : list Effect) : Duration :=
  fold_right Z.add 0 (sleeps tr).

(** The warnings about a failed attempt in a trace. *)
Definition failure_warnings (tr : list Effect) : nat :=
  length (List.filter
            (fun e => match e with
                      | Logged l =>
                          String.eqb (Logger.msg l) "Webhook delivery failed"
                      | _ => false
                      end) tr).

End DeliveryVocabulary.

Module TrackerVocabulary.
Import Go Model.

(** The entry as [Track] stores it: with the expiry it computed. *)
Definition stamped (info : TrackingInfo) (expires : Time) : TrackingInfo :=
  {| InfoMessageID := InfoMessageID info;
     InfoTrxID := InfoTrxID info;
     InfoDestination := InfoDestination info;
     InfoDestinationType := InfoDestinationType info;
     InfoSentAt := InfoSentAt info;
     InfoExpiresAt := expires |}.

(** The tracker holds an unexpired entry for the chat. *)
Definition tracked_chat (mt : Tracker.MessageTracker) (now : Time)
    (chatJID : string) : Prop :=
  exists k info,
    Tracker.cache mt !! k = Some info
    /\ InfoDestination info = chatJID
    /\ now < InfoExpiresAt info.

End TrackerVocabulary.

(** ** internal/service: [TransactionService] over the in-memory tracker *)

Module LegacyService.
Import Go Model WhatsApp.

(** What one call reads from outside: the client and the three clock
    readings ([SentAt: time.Now()], [time.Now()] inside [Track],
    [Timestamp: time.Now()]). *)
Record Env : Type := {
  wa : Client;
  nowSentAt : Time;
  nowTrack : Time;
  nowData : Time
}.

Section WithFormat.

(** [formatMessage]: the text built by [fmt.Sprintf]. *)
Variable formatMessage : TransactionRequest -> string.

(** [ProcessTransaction]: validate, format, send, track.  The result
    lists the calls made on the chat network as well. *)
Definition ProcessTransaction (env : Env) (mt : Tracker.MessageTracker)
    (req : TransactionRequest)
    : Tracker.MessageTracker * list SendCall * Result TransactionData :=
  match ValidateDestination (wa env) (ReqDestination req) with
  | Err e => (mt, [], Err (Wrap "invalid destination" e))
  | Ok (jid, destType) =>
      let message := formatMessage req in
      let '(calls, sent) := SendMessage (wa env) jid message in
      match sent with
      | Err e => (mt, calls, Err (Wrap "failed to send message" e))
      | Ok messageID =>
          let trackingInfo :=
            {| InfoMessageID := messageID;
               InfoTrxID := ReqTrxID req;
               InfoDestination := JIDString jid;
               InfoDestinationType := destType;
               InfoSentAt := nowSentAt env;
               InfoExpiresAt := Service.zeroTime |} in
          (Tracker.Track mt (nowTrack env) trackingInfo, calls,
           Ok {| DataTrxID := ReqTrxID req;
                 DataDestination := JIDString jid;
                 DataDestinationType := destType;
                 DataMessageID := messageID;
                 DataTimestamp := nowData env |})
      end
  end.

(** The service as the handler sees it. *)
Definition serve (env : Env) (mt : Tracker.MessageTracker)
    (req : TransactionRequest)
    : Tracker.MessageTracker * Result TransactionData :=
  (fst (fst (ProcessTransaction env mt req)),
   snd (ProcessTransaction env mt req)).

End WithFormat.

End LegacyService.

Module LegacyScenario.
Import Go Model WhatsApp LegacyService.

Definition plainText (req : TransactionRequest) : string :=
  ReqInstructions req.

Definition calm (now : Time) : Env :=
  {| wa := ValidationSpec.friendlyClient;
     nowSentAt := now; nowTrack := now; nowData := now |}.

End LegacyScenario.

Module HandlerScenario.
Import Go Model WhatsApp Handler.

(** A request whose destination has no digit in it. *)
Definition noDigits : Query :=
  {| destination := "nobody"; trxid := "TRX7";
     descriptions := "top up"; instructions := "please confirm" |}.

End HandlerScenario.

(** ** internal/middleware: API key authentication *)

Module Middleware.
Import Go Model.

Record AuthMiddleware : Type := { apiKey : string }.

Definition StatusUnauthorized : Z := 401.

Definition sendErrorResponse (code message : string) (statusCode : Z)
    : Handler.Response :=
  {| Handler.StatusCode := statusCode;
     Handler.Status := "error";
     Handler.RespMessage := message;
     Handler.ErrorCode := Some code;
     Handler.Data := None |}.

Definition Debug (m : string) : Logger.Entry :=
  {| Logger.level := Logger.LevelDebug; Logger.trxid := None;
     Logger.msg := m |}.
Definition Warn (m : string) : Logger.Entry :=
  {| Logger.level := Logger.LevelWarn; Logger.trxid := None;
     Logger.msg := m |}.

(** What the wrapped handler function does with one request: either the
    middleware writes the response itself, or it calls [next] and what
    [next] does is the result. *)
Inductive Served (A : Type) : Type :=
| Refused (written : Handler.Response) (logged : list Logger.Entry)
| Proceeded (result : A) (logged : list Logger.Entry).
Arguments Refused {A} written logged.
Arguments Proceeded {A} result logged.

(** [Authenticate]; [header r] is [r.Header.Get("X-API-Key")]. *)
Definition Authenticate {R A : Type} (m : AuthMiddleware)
    (header : R -> string) (next : R -> A) (r : R) : Served A :=
  if String.eqb (apiKey m) ""
  then Proceeded (next r)
         [Debug "API authentication disabled (running in local mode)"]
  else
    let apiKey_ := header r in
    if String.eqb apiKey_ ""
    then Refused (sendErrorResponse "ERR_UNAUTHORIZED" "Missing API key"
                    StatusUnauthorized)
                 [Warn "Missing API key"]
    else if negb (String.eqb apiKey_ (apiKey m))
    then Refused (sendErrorResponse "ERR_UNAUTHORIZED" "Invalid API key"
                    StatusUnauthorized)
                 [Warn "Invalid API key"]
    else Proceeded (next r) [].

Definition invoked {A : Type} (s : Served A) : bool :=
  match s with Proceeded _ _ => true | Refused _ _ => false end.

End Middleware.

(** ** internal/config: reading the environment *)

Module Config.
Import Go Model.

(** [os.Getenv] after [godotenv.Load]: the value of a variable, [""]
    when it is not set. *)
Definition Environ := string -> string.

Definition getEnv (environ : Environ) (key defaultValue : string) : string :=
  let value := environ key in
  if String.eqb value "" then defaultValue else value.

(** *** [strconv.Atoi] *)

Definition is_digit (a : ascii) : bool :=
  ((48 <=? N_of_ascii a) && (N_of_ascii a <=? 57))%N.

(** The digit loop [n = n*10 + int(ch - '0')]; [None] is the syntax
    error for a byte outside ['0'..'9']. *)
Fixpoint decimal (s : string) (n : Z) : option Z :=
  match s with
  | EmptyString => Some n
  | String ch s' =>
      if is_digit ch
      then decimal s' (n * 10 + (Z.of_N (N_of_ascii ch) - 48))
      else None
  end.

(** [strconv.Atoi] for an [int] of [intSize] bits: an optional sign, then
    at least one digit and digits only (base 10 takes no underscores),
    and the value within the range of [int]; [None] is an error of either
    kind. *)
Definition Atoi (intSize : Z) (s : string) : option Z :=
  match s with
  | EmptyString => None
  | String s0 rest =>
      let digits :=
        if Ascii.eqb s0 "-"%char || Ascii.eqb s0 "+"%char then rest else s in
      if String.eqb digits "" then None
      else
        match decimal digits 0 with
        | None => None
        | Some un =>
            let n := if Ascii.eqb s0 "-"%char then - un else un in
            if (- 2 ^ (intSize - 1) <=? n) && (n <=? 2 ^ (intSize - 1) - 1)
            then Some n
            else None
        end
  end.

Definition parseInt (intSize : Z) (value : string) (defaultValue : Z) : Z :=
  if String.eqb value "" then defaultValue
  else
    match Atoi intSize value with
    | None => defaultValue
    | Some intValue => intValue
    end.

(** *** [strings.Split] with a one-byte separator *)

Fixpoint Split (s : string) (sep : ascii) : list string :=
  match s with
  | EmptyString => [EmptyString]
  | String c s' =>
      if Ascii.eqb c sep then EmptyString :: Split s' sep
      else
        match Split s' sep with
        | [] => [String c EmptyString]
        | part :: parts => String c part :: parts
        end
  end.

(** *** [strings.TrimSpace]

    White space is what [unicode.IsSpace] says: U+0009..U+000D, U+0020,
    U+0085, U+00A0, U+1680, U+2000..U+200A, U+2028, U+2029, U+202F,
    U+205F, U+3000.  A string is its UTF-8 bytes; a rune is a white space
    exactly when its bytes are the encoding of one of these (a byte
    sequence that is not valid UTF-8 decodes to U+FFFD, which is none). *)
Definition byte (a : ascii) : N := N_of_ascii a.

Definition is_space1 (a : ascii) : bool :=
  ((9 <=? byte a) && (byte a <=? 13) || (byte a =? 32))%N.

(** [C2 85] and [C2 A0]. *)
Definition is_space2 (a b : ascii) : bool :=
  ((byte a =? 194) && ((byte b =? 133) || (byte b =? 160)))%N.

(** [E1 9A 80]; [E2 80 80..8A], [E2 80 A8], [E2 80 A9], [E2 80 AF];
    [E2 81 9F]; [E3 80 80]. *)
Definition is_space3 (a b c : ascii) : bool :=
  ((byte a =? 225) && (byte b =? 154) && (byte c =? 128)
   || (byte a =? 226) && (byte b =? 128)
      && ((128 <=? byte c) && (byte c <=? 138)
          || (byte c =? 168) || (byte c =? 169) || (byte c =? 175))
   || (byte a =? 226) && (byte b =? 129) && (byte c =? 159)
   || (byte a =? 227) && (byte b =? 128) && (byte c =? 128))%N.

(** Drops white-space runes from the front for as long as there is one.
    With [back] the bytes are read in reverse order, so that the same
    scan serves a string turned around. *)
Fixpoint skipSpace (back : bool) (s : string) {struct s} : string :=
  match s with
  | EmptyString => EmptyString
  | String a s1 =>
      if is_space1 a then skipSpace back s1
      else
        match s1 with
        | EmptyString => s
        | String b s2 =>
            if (if back then is_space2 b a else is_space2 a b)
            then skipSpace back s2
            else
              match s2 with
              | EmptyString => s
              | String c s3 =>
                  if (if back then is_space3 c b a else is_space3 a b c)
                  then skipSpace back s3
                  else s
              end
        end
  end.

Fixpoint reverse_onto (s acc : string) : string :=
  match s with
  | EmptyString => acc
  | String a s' => reverse_onto s' (String a acc)
  end.

Definition reverse (s : string) : string := reverse_onto s EmptyString.

(** [TrimSpace]: white space goes from the front, then from the back
    (the scan from the back decodes the last rune each time, which is the
    front scan on the reversed bytes). *)
Definition TrimSpace (s : string) : string :=
  reverse (skipSpace true (reverse (skipSpace false s))).

(** The loop of [parseStringList]. *)
Fixpoint collect (parts : list string) : list string :=
  match parts with
  | [] => []
  | part :: rest =>
      let trimmed := TrimSpace part in
      if negb (String.eqb trimmed "") then trimmed :: collect rest
      else collect rest
  end.

Definition parseStringList (value : string) : list string :=
  if String.eqb value "" then []
  else collect (Split value ","%char).

(** *** [Load] *)

Record ServerConfig : Type := { Port : string; Host : string }.
Record WhatsAppConfig : Type := { DBPath : string; LogLevel : string }.
Record SecurityConfig : Type := { APIKey : string }.
Record RateLimitConfig : Type := { MaxMessagesPerSecond : Z }.
Record MessageTrackingConfig : Type := {
  TTL : Duration;
  TrackingDBPath : string;
  WebhookWhitelist : list string
}.

Record Config : Type := {
  Server : ServerConfig;
  WhatsApp : WhatsAppConfig;
  Otomax : Otomax.OtomaxConfig;
  Security : SecurityConfig;
  RateLimit : RateLimitConfig;
  MessageTracking : MessageTrackingConfig
}.

Definition Hour : Duration := 3600 * Second.

Section WithLibrary.

(** [time.ParseDuration] and the width of [int] on the platform. *)
Variable ParseDuration : string -> Result Duration.
Variable intSize : Z.

Definition parseDuration (value : string) (defaultValue : Duration)
    : Duration :=
  if String.eqb value "" then defaultValue
  else
    match ParseDuration value with
    | Err _ => defaultValue
    | Ok duration => duration
    end.

Definition Load (environ : Environ) : Result Config :=
  let config :=
    {| Server := {| Port := getEnv environ "PORT" "8080";
                    Host := getEnv environ "HOST" "0.0.0.0" |};
       WhatsApp := {| DBPath := getEnv environ "WA_DB_PATH" "./db/whatsmeow.db";
                      LogLevel := getEnv environ "WA_LOG_LEVEL" "INFO" |};
       Otomax :=
         {| Otomax.WebhookURL := getEnv environ "OTOMAX_WEBHOOK_URL" "";
            Otomax.WebhookTimeout :=
              parseDuration (getEnv environ "OTOMAX_WEBHOOK_TIMEOUT" "10s")
                            (10 * Second);
            Otomax.RetryCount :=
              parseInt intSize
                (getEnv environ "OTOMAX_WEBHOOK_RETRY_COUNT" "3") 3 |};
       Security := {| APIKey := getEnv environ "API_KEY" "" |};
       RateLimit :=
         {| MaxMessagesPerSecond :=
              parseInt intSize (getEnv environ "MAX_MESSAGES_PER_SECOND" "5")
                       5 |};
       MessageTracking :=
         {| TTL := parseDuration (getEnv environ "MESSAGE_TRACKING_TTL" "24h")
                                 (24 * Hour);
            TrackingDBPath :=
              getEnv environ "TRACKING_DB_PATH" "./db/tracking.db";
            WebhookWhitelist :=
              parseStringList (getEnv environ "WEBHOOK_WHITELIST_JIDS" "") |}
    |} in
  if String.eqb (Otomax.WebhookURL (Otomax config)) ""
  then Err (New "OTOMAX_WEBHOOK_URL is required")
  else Ok config.

End WithLibrary.

(** [NewAuthMiddleware(cfg.Security.APIKey, ...)] of [main]. *)
Definition authMiddleware (cfg : Config) : Middleware.AuthMiddleware :=
  {| Middleware.apiKey := APIKey (Security cfg) |}.

End Config.

Module ConfigVocabulary.
Import Go Config.

(** The byte [c] occurs in [s]. *)
Fixpoint mentions (c : ascii) (s : string) : bool :=
  match s with
  | EmptyString => false
  | String a s' => Ascii.eqb a c || mentions c s'
  end.

(** [strings.Join(entries, ",")]. *)
Fixpoint Join (entries : list string) : string :=
  match entries with
  | [] => EmptyString
  | [e] => e
  | e :: rest => e +:+ "," +:+ Join rest
  end.

(** An entry as [parseStringList] yields them: not empty, without a
    comma, and left as it is by [TrimSpace]. *)
Definition clean (e : string) : Prop :=
  e <> "" /\ mentions ","%char e = false /\ TrimSpace e = e.

(** The rest of [s] behind one white-space rune at its front, if there
    is one there; the bytes of the rune in reverse order with [back]. *)
Definition leading_space (back : bool) (s : string) : option string :=
  match s with
  | EmptyString => None
  | String a s1 =>
      if is_space1 a then Some s1
      else
        match s1 with
        | EmptyString => None
        | String b s2 =>
            if (if back then is_space2 b a else is_space2 a b) then Some s2
            else
              match s2 with
              | EmptyString => None
              | String c s3 =>
                  if (if back then is_space3 c b a else is_space3 a b c)
                  then Some s3
                  else None
              end
        end
  end.

Fixpoint all_digits (s : string) : bool :=
  match s with
  | EmptyString => true
  | String a s' => is_digit a && all_digits s'
  end.

(** The digits [d] read from left to right onto [n]. *)
Fixpoint value_onto (d : Decimal.uint) (n : Z) : Z :=
  match d with
  | Decimal.Nil => n
  | Decimal.D0 d' => value_onto d' (n * 10 + 0)
  | Decimal.D1 d' => value_onto d' (n * 10 + 1)
  | Decimal.D2 d' => value_onto d' (n * 10 + 2)
  | Decimal.D3 d' => value_onto d' (n * 10 + 3)
  | Decimal.D4 d' => value_onto d' (n * 10 + 4)
  | Decimal.D5 d' => value_onto d' (n * 10 + 5)
  | Decimal.D6 d' => value_onto d' (n * 10 + 6)
  | Decimal.D7 d' => value_onto d' (n * 10 + 7)
  | Decimal.D8 d' => value_onto d' (n * 10 + 8)
  | Decimal.D9 d' => value_onto d' (n * 10 + 9)
  end.

(** The decimal numeral of an integer: ["0"], ["42"], ["-7"]. *)
Definition numeral (n : Z) : string := NilZero.string_of_int (Z.to_int n).

(** An environment with the given variables set and no other. *)
Fixpoint environment (vars : list (string * string)) : Environ :=
  fun key =>
    match vars with
    | [] => EmptyString
    | (k, v) :: rest =>
        if String.eqb k key then v else environment rest key
    end.

End ConfigVocabulary.

(** ** internal/handler: the list of joined groups *)

Module Groups.
Import Go Model WhatsApp.

(** [types.GroupInfo] as [GetJoinedGroups] returns it, and what
    [ListGroups] reads of the result of [GetGroupInfo]. *)
Record JoinedGroup : Type := {
  GroupJID : JID;
  GroupName : string;
  Participants : list JID
}.

Record GroupDetails : Type := {
  Topic : string;
  IsAnnounce : bool
}.

(** The whatsmeow client, as far as this route calls it. *)
Record GroupsClient : Type := {
  Connected : bool;
  ClientJoinedGroups : Result (list JoinedGroup);
  ClientGroupInfo : JID -> Result GroupDetails
}.

(** [WhatsAppService.GetJoinedGroups]. *)
Definition GetJoinedGroups (c : GroupsClient) : Result (list JoinedGroup) :=
  if negb (Connected c) then Err (New "WhatsApp client not connected")
  else
    match ClientJoinedGroups c with
    | Err e => Err (Wrap "failed to get joined groups" e)
    | Ok groups => Ok groups
    end.

(** [GroupInfo] of the API response. *)
Record GroupInfo : Type := {
  InfoJID : string;
  InfoName : string;
  InfoTopic : string;
  InfoParticipants : Z;
  InfoIsAnnounce : bool
}.

Record GetGroupsResponse : Type := {
  StatusCode : Z;
  Status : string;
  Message : string;
  Data : list GroupInfo
}.

Definition sendSuccessResponse (data : list GroupInfo) : GetGroupsResponse :=
  {| StatusCode := 200; Status := "success";
     Message := "Groups retrieved successfully"; Data := data |}.

Definition sendErrorResponse (message : string) (statusCode : Z)
    : GetGroupsResponse :=
  {| StatusCode := statusCode; Status := "error";
     Message := message; Data := [] |}.

(** The loop of [ListGroups]: the entries appended, and the JIDs that
    [GetGroupInfo] was called with, in order. *)
Fixpoint convert (c : GroupsClient) (groups : list JoinedGroup)
    : list GroupInfo * list JID :=
  match groups with
  | [] => ([], [])
  | group :: rest =>
      let groupInfo :=
        {| InfoJID := JIDString (GroupJID group);
           InfoName := GroupName group;
           InfoTopic := "";
           InfoParticipants := Z.of_nat (length (Participants group));
           InfoIsAnnounce := false |} in
      let groupInfo :=
        match ClientGroupInfo c (GroupJID group) with
        | Ok info =>
            {| InfoJID := InfoJID groupInfo;
               InfoName := InfoName groupInfo;
               InfoTopic := Topic info;
               InfoParticipants := InfoParticipants groupInfo;
               InfoIsAnnounce := IsAnnounce info |}
        | Err _ => groupInfo
        end in
      let '(groupsList, asked) := convert c rest in
      (groupInfo :: groupsList, GroupJID group :: asked)
  end.

(** [ListGroups]: the response, the JIDs looked up, the log lines. *)
Definition ListGroups (c : GroupsClient)
    : GetGroupsResponse * list JID * list Logger.Entry :=
  match GetJoinedGroups c with
  | Err err =>
      (sendErrorResponse "Failed to retrieve groups" 500, [],
       [Logger.Error "Failed to get joined groups"])
  | Ok groups =>
      let '(groupsList, asked) := convert c groups in
      (sendSuccessResponse groupsList, asked,
       [Logger.Info "Groups list retrieved"])
  end.

End Groups.

(** * Properties *)

(** ** Destination validation *)

Module ValidationFacts.
Import Go WhatsApp ValidationSpec.

Example normalize_local_number :
  normalizePhoneNumber "0812-3456-7890" = "6281234567890".
Proof. reflexivity. Qed.

Example normalize_international_number :
  normalizePhoneNumber "+62 812 3456 7890" = "6281234567890".
Proof. reflexivity. Qed.

Example normalize_too_short : normalizePhoneNumber "12345" = "".
Proof. reflexivity. Qed.

Example validate_local_number :
  ValidateDestination friendlyClient "0812-3456-7890"
  = Ok (NewJID "6281234567890" "s.whatsapp.net", "personal").
Proof. reflexivity. Qed.

Lemma all_digits_remove_non_digits (s : string) :
  all_digits (remove_non_digits s) = true.
Proof.
  induction s as [|a s IH]; simpl; [reflexivity|].
  destruct (is_digit a) eqn:Ha; simpl; [rewrite Ha|]; exact IH.
Qed.

Lemma all_digits_TrimLeft (s : string) (c : ascii) :
  all_digits s = true -> all_digits (TrimLeft s c) = true.
Proof.
  induction s as [|a s IH]; simpl; [reflexivity|].
  intros H. destruct (Ascii.eqb a c); [|exact H].
  apply andb_true_iff in H as [_ H]. auto.
Qed.

Lemma normalized_digits (d : string) : all_digits (normalized d) = true.
Proof.
  unfold normalized.
  pose proof (all_digits_TrimLeft _ "0"%char (all_digits_remove_non_digits d)) as H.
  destruct (HasPrefix _ "62"); [exact H|].
  simpl. exact H.
Qed.

Lemma normalized_prefix (d : string) : HasPrefix (normalized d) "62" = true.
Proof.
  unfold normalized.
  destruct (HasPrefix (TrimLeft (remove_non_digits d) "0") "62") eqn:E;
    [exact E|].
  unfold HasPrefix. simpl.
  destruct (TrimLeft (remove_non_digits d) "0"); reflexivity.
Qed.

Lemma normalizePhoneNumber_normalized (d : string) :
  normalizePhoneNumber d =
  if (len (normalized d) <? 11) || (15 <? len (normalized d))
  then "" else normalized d.
Proof.
  unfold normalizePhoneNumber, normalized.
  destruct (HasPrefix (TrimLeft (remove_non_digits d) "0") "62");
    reflexivity.
Qed.





End ValidationFacts.

(** ** The whitelist *)

Module WhitelistFacts.
Import Go WhatsApp.

Lemma isWhitelisted_In (whitelist : list string) (jid : string) :
  isWhitelisted whitelist jid = true <-> In jid whitelist.
Proof.
  induction whitelist as [|w ws IH]; simpl.
  - split; [discriminate|tauto].
  - destruct (String.eqb w jid) eqn:E.
    + apply String.eqb_eq in E. tauto.
    + apply String.eqb_neq in E. rewrite IH. tauto.
Qed.

Example open_when_empty : whitelistGate [] "628111@s.whatsapp.net" = true.
Proof. reflexivity. Qed.

Example exact_match_only :
  whitelistGate ["628111@s.whatsapp.net"] "628111@s.whatsapp.net" = true
  /\ whitelistGate ["628111@s.whatsapp.net"] "628111" = false
  /\ whitelistGate ["628111@s.whatsapp.net"] "628111@S.WHATSAPP.NET" = false.
Proof. repeat split. Qed.

(** C7. The whitelist filter is a function of the configured list and the
    chat address alone: with an empty list every address passes, with a
    non-empty list an address passes exactly when it equals one of the
    entries; an inbound event that is not the account's own is dropped as
    not whitelisted exactly when this filter says no. *)
Theorem C7_whitelist_filter (whitelist : list string) (jid : string) :
  (whitelist = [] -> whitelistGate whitelist jid = true)
  /\ (whitelist <> [] ->
      (whitelistGate whitelist jid = true <-> In jid whitelist))
  /\ (forall s repo now fault endpoint evt,
         webhookWhitelist s = whitelist ->
         JIDString (Chat (Info evt)) = jid ->
         IsFromMe (Info evt) = false ->
         repoSet s = true ->
         (fst (handleIncomingMessage s repo now fault endpoint evt)
            = IgnoredNotWhitelisted
          <-> whitelistGate whitelist jid = false)).
Proof.
  split; [|split].
  - intros ->. reflexivity.
  - intros Hne. destruct whitelist as [|w ws]; [congruence|].
    unfold whitelistGate.
    replace (0 <? Z.of_nat (length (w :: ws))) with true
      by (symmetry; apply Z.ltb_lt; simpl; lia).
    apply isWhitelisted_In.
  - intros s repo now fault endpoint evt Hw Hj Hme Hrepo.
    unfold handleIncomingMessage. rewrite Hme, Hrepo, Hw, Hj. simpl.
    destruct (whitelistGate whitelist jid); simpl.
    + split; [|discriminate].
      destruct (Repository.GetByDestination repo jid now fault) as [[r|]|e];
        simpl; try discriminate.
      destruct (messageContent (Msg evt)); simpl; try discriminate.
      destruct (otomaxService s) as [cfg|]; simpl; try discriminate.
      destruct (Otomax.SendWebhook _ _ _ _) as [err effects].
      discriminate.
    + split; reflexivity.
Qed.

Lemma C7_whitelist_filter_witness :
  ["628111@s.whatsapp.net"] <> []
  /\ (whitelistGate ["628111@s.whatsapp.net"] "628222@s.whatsapp.net" = true
      <-> In "628222@s.whatsapp.net" ["628111@s.whatsapp.net"]).
Proof.
  split; [discriminate|].
  exact (proj1 (proj2 (C7_whitelist_filter ["628111@s.whatsapp.net"]
                         "628222@s.whatsapp.net"))
               (fun H : ["628111@s.whatsapp.net"] = [] =>
                  match H with end)).
Defined.

End WhitelistFacts.

(** ** The repository *)

Module RepositoryFacts.
Import Go Repository RepositorySpec.







(** *** [ORDER BY sent_at DESC LIMIT 1] *)






(** *** The three read paths *)











(** *** The UNIQUE constraint as an invariant *)

Lemma empty_unique : unique_trx Repository.empty.
Proof. apply NoDup_nil_2. Qed.

Lemma Save_unique (t : Table) (record : TransactionRecord) (now : Time)
    (fault : option error) :
  unique_trx t -> unique_trx (fst (Save t record now fault)).
Proof.
  intros Hu. unfold Save. destruct fault; [exact Hu|].
  destruct (trx_id_taken t (TrxID record)) eqn:Ht; [exact Hu|].
  unfold unique_trx in *. simpl. rewrite map_app. simpl.
  apply NoDup_app. split; [exact Hu|]. split; [|apply NoDup_singleton].
  intros x Hx Hx'. apply list_elem_of_singleton in Hx'. subst x.
  apply list_elem_of_In, in_map_iff in Hx as [r [Hr Hin]].
  unfold trx_id_taken in Ht.
  assert (Hex : existsb (fun r => String.eqb (TrxID r) (TrxID record))
                        (rows t) = true).
  { apply existsb_exists. exists r. split; [exact Hin|].
    apply String.eqb_eq. exact Hr. }
  congruence.
Qed.


Lemma CleanupExpired_unique (t : Table) (now : Time) (fault : option error) :
  unique_trx t -> unique_trx (fst (CleanupExpired t now fault)).
Proof.
  unfold CleanupExpired, unique_trx. destruct fault; [auto|]. simpl.
  induction (rows t) as [|r l IH]; simpl; [auto|].
  intros Hnd. inversion Hnd as [|? ? Hnot Hnd']; subst.
  destruct (negb (ExpiresAt r <=? now)); simpl; [|auto].
  apply NoDup_cons_2; [|auto].
  intros Hin. apply Hnot.
  apply list_elem_of_In, in_map_iff in Hin as [x [Hx Hin]].
  apply List.filter_In in Hin as [Hin _].
  apply list_elem_of_In, in_map_iff. exists x. auto.
Qed.



End RepositoryFacts.

(** ** Reply correlation *)

Module CorrelationFacts.
Import Go Model Repository RepositorySpec RepositoryFacts WhatsApp.

Example latest_of_two :
  GetByDestination Scenario.twoForA "628111@s.whatsapp.net" 250 None
  = Ok (Some Scenario.newer).
Proof. reflexivity. Qed.

Example reply_goes_to_latest :
  exists payload,
    fst (handleIncomingMessage Scenario.bridge Scenario.twoForA 250 None
           Scenario.deadEndpoint Scenario.replyOnA)
    = Correlated payload "TRX-NEW" None
    /\ OriginalMessageID (Context payload) = "M-NEW".
Proof. eexists. split; reflexivity. Qed.




End CorrelationFacts.

(** ** The dedup gate *)

Module ServiceFacts.
Import Go Model Repository RepositorySpec RepositoryFacts WhatsApp Service
       ServiceSpec.

Example short_number_is_rejected :
  snd (ProcessTransaction 1000 (Scenario.calm 100) Scenario.freshWorld
         (Scenario.forward "TRX1" "628111"))
  = Err (Wrap "invalid destination" (New "invalid phone number format")).
Proof. reflexivity. Qed.

Example first_call_stores :
  let out := ProcessTransaction 1000 (Scenario.calm 100) Scenario.freshWorld
               (Scenario.forward "TRX1" "0812-3456-7890") in
  is_ok (snd out) = true
  /\ rows (repo (fst out))
     = [{| ID := 1; TrxID := "TRX1"; MessageID := "M1";
           Destination := "6281234567890@s.whatsapp.net";
           DestinationType := "personal";
           SentAt := 100; ExpiresAt := 1100; CreatedAt := 100 |}].
Proof. split; reflexivity. Qed.

Example second_call_is_duplicate :
  ProcessTransaction 1000 (Scenario.calm 200)
    (Scenario.worldWith (Scenario.trx1 "M1"))
    (Scenario.forward "TRX1" "0812-2222-2222")
  = (Scenario.worldWith (Scenario.trx1 "M1"),
     Err (DuplicateTransaction "TRX1" 100)).
Proof. reflexivity. Qed.







(** *** Errors before the send, silence after it *)

Lemma SendMessage_failed (c : Client) (to : JID) (text : string) (e : error) :
  snd (SendMessage c to text) = Err e ->
  forall call, In call (fst (SendMessage c to text)) ->
               is_ok (SendOutcome call) = false.
Proof.
  unfold SendMessage. destruct (IsConnected c); simpl.
  - destruct (ClientSend c to text) eqn:Hs; [discriminate|].
    intros _ call [<-|[]]. reflexivity.
  - intros _ call [].
Qed.

Lemma SendMessage_sent (c : Client) (to : JID) (text mid : string) :
  snd (SendMessage c to text) = Ok mid ->
  fst (SendMessage c to text)
  = [{| SentTo := to; SentText := text; SendOutcome := Ok mid |}].
Proof.
  unfold SendMessage. destruct (IsConnected c); simpl; [|discriminate].
  destruct (ClientSend c to text); [|discriminate].
  intros [= ->]. reflexivity.
Qed.

Lemma Save_refused_iff (t : Table) (record : TransactionRecord) (now : Time)
    (fault : option error) :
  snd (Save t record now fault) <> None
  <-> fault <> None \/ trx_id_taken t (TrxID record) = true.
Proof.
  unfold Save. destruct fault as [e|]; simpl.
  - split; [left|]; discriminate.
  - destruct (trx_id_taken t (TrxID record)); simpl.
    + split; [auto|discriminate].
    + split; [congruence|]. intros [H|H]; congruence.
Qed.

Lemma Save_refused_unchanged (t : Table) (record : TransactionRecord)
    (now : Time) (fault : option error) :
  snd (Save t record now fault) <> None -> fst (Save t record now fault) = t.
Proof.
  unfold Save. destruct fault as [e|]; simpl; [reflexivity|].
  destruct (trx_id_taken t (TrxID record)); simpl; [reflexivity|congruence].
Qed.


(** The call once the gate is passed and the message is out. *)
Lemma message_sent (ttl : Duration) (env : Env) (w : World)
    (req : TransactionRequest) (jid : JID) (ty mid : string) :
  GetByTrxID (repo w) (ReqTrxID req) (nowCheck env) (getFault env) = Ok None ->
  ValidateDestination (wa env) (ReqDestination req) = Ok (jid, ty) ->
  snd (SendMessage (wa env) jid (ReqInstructions req)) = Ok mid ->
  ProcessTransaction ttl env w req =
  let saved := Save (repo w) (newRecord req mid jid ty (nowSent env) ttl)
                    (nowInsert env) (saveFault env) in
  ({| repo := fst saved;
      sends := sends w ++ [{| SentTo := jid; SentText := ReqInstructions req;
                              SendOutcome := Ok mid |}];
      logs := logs w ++
              match snd saved with
              | Some _ => [Logger.ErrorTrx (ReqTrxID req)
                             "Failed to save transaction to database"]
              | None => []
              end ++ [Logger.InfoTrx (ReqTrxID req) "Transaction sent"] |},
   Ok {| DataTrxID := ReqTrxID req;
         DataDestination := JIDString jid;
         DataDestinationType := ty;
         DataMessageID := mid;
         DataTimestamp := nowSent env |}).
Proof.
  intros Hg Hv Hs. unfold ProcessTransaction. rewrite Hg, Hv.
  pose proof (SendMessage_sent _ _ _ _ Hs) as Hc.
  destruct (SendMessage (wa env) jid (ReqInstructions req)) as [calls sent].
  simpl in Hs, Hc. subst.
  destruct (Save _ _ _ _) as [repo' saveErr]. reflexivity.
Qed.

Lemma success_iff (ttl : Duration) (env : Env) (w : World)
    (req : TransactionRequest) :
  is_ok (snd (ProcessTransaction ttl env w req)) = true <->
  exists jid ty mid,
    GetByTrxID (repo w) (ReqTrxID req) (nowCheck env) (getFault env) = Ok None
    /\ ValidateDestination (wa env) (ReqDestination req) = Ok (jid, ty)
    /\ snd (SendMessage (wa env) jid (ReqInstructions req)) = Ok mid.
Proof.
  split.
  - unfold ProcessTransaction.
    destruct (GetByTrxID _ _ _ _) as [[r|]|e]; try discriminate.
    destruct (ValidateDestination _ _) as [[jid ty]|e]; try discriminate.
    destruct (SendMessage _ _ _) as [calls [mid|e]] eqn:Hs; try discriminate.
    intros _. exists jid, ty, mid. rewrite Hs. auto.
  - intros [jid [ty [mid [Hg [Hv Hs]]]]].
    rewrite (message_sent ttl env w req jid ty mid Hg Hv Hs). reflexivity.
Qed.

Lemma failure_leaves_store (ttl : Duration) (env : Env) (w : World)
    (req : TransactionRequest) :
  is_ok (snd (ProcessTransaction ttl env w req)) = false ->
  repo (fst (ProcessTransaction ttl env w req)) = repo w
  /\ logs (fst (ProcessTransaction ttl env w req)) = logs w
  /\ forall call, In call (sends (fst (ProcessTransaction ttl env w req))) ->
                  In call (sends w) \/ is_ok (SendOutcome call) = false.
Proof.
  unfold ProcessTransaction.
  destruct (GetByTrxID _ _ _ _) as [[r|]|e]; simpl; auto.
  destruct (ValidateDestination _ _) as [[jid ty]|e]; simpl; auto.
  pose proof (SendMessage_failed (wa env) jid (ReqInstructions req)) as Hf.
  destruct (SendMessage _ _ _) as [calls [mid|e]]; simpl in *.
  - destruct (Save _ _ _ _) as [repo' saveErr]. discriminate.
  - intros _. repeat split. intros call Hin.
    apply in_app_or in Hin as [Hin|Hin]; eauto.
Qed.

Lemma result_ignores_save (ttl : Duration) (env : Env) (w : World)
    (req : TransactionRequest) (fault : option error) (now : Time) :
  snd (ProcessTransaction ttl (with_save env fault now) w req)
  = snd (ProcessTransaction ttl env w req).
Proof.
  unfold ProcessTransaction, with_save. simpl.
  destruct (GetByTrxID _ _ _ _) as [[r|]|e]; try reflexivity.
  destruct (ValidateDestination _ _) as [[jid ty]|e]; try reflexivity.
  destruct (SendMessage _ _ _) as [calls [mid|e]]; try reflexivity.
  destruct (Save (repo w) _ now fault) as [r1 e1].
  destruct (Save (repo w) _ (nowInsert env) (saveFault env)) as [r2 e2].
  reflexivity.
Qed.

Lemma refused_save_is_logged (ttl : Duration) (env : Env) (w : World)
    (req : TransactionRequest) :
  is_ok (snd (ProcessTransaction ttl env w req)) = true ->
  save_refused env w req ->
  repo (fst (ProcessTransaction ttl env w req)) = repo w
  /\ In (Logger.ErrorTrx (ReqTrxID req)
           "Failed to save transaction to database")
        (logs (fst (ProcessTransaction ttl env w req))).
Proof.
  intros Hok Href.
  apply success_iff in Hok as [jid [ty [mid [Hg [Hv Hs]]]]].
  rewrite (message_sent ttl env w req jid ty mid Hg Hv Hs). simpl.
  assert (Hsave : snd (Save (repo w)
                         (newRecord req mid jid ty (nowSent env) ttl)
                         (nowInsert env) (saveFault env)) <> None)
    by (apply Save_refused_iff; exact Href).
  split; [apply Save_refused_unchanged; exact Hsave|].
  destruct (snd (Save _ _ _ _)); [|congruence].
  apply in_or_app. right. left. reflexivity.
Qed.

(** C5. [ProcessTransaction] returns an error exactly when the duplicate
    check, the validation of the destination or the send fails; in that
    case the table and the log are as before and no message has gone out.
    What the INSERT does after a successful send never shows in the
    result: the result is the same for every outcome of the INSERT, and a
    refused INSERT leaves the table as it was and an error line in the
    log, next to a success for the caller. *)
Theorem C5_error_propagation (ttl : Duration) (env : Env) (w : World)
    (req : TransactionRequest) :
  (is_ok (snd (ProcessTransaction ttl env w req)) = false
   <-> fails_before_send env w req)
  /\ (is_ok (snd (ProcessTransaction ttl env w req)) = false ->
      repo (fst (ProcessTransaction ttl env w req)) = repo w
      /\ logs (fst (ProcessTransaction ttl env w req)) = logs w
      /\ forall call,
           In call (sends (fst (ProcessTransaction ttl env w req))) ->
           In call (sends w) \/ is_ok (SendOutcome call) = false)
  /\ (forall fault now,
        snd (ProcessTransaction ttl (with_save env fault now) w req)
        = snd (ProcessTransaction ttl env w req))
  /\ (is_ok (snd (ProcessTransaction ttl env w req)) = true ->
      (exists call,
          sends (fst (ProcessTransaction ttl env w req)) = sends w ++ [call]
          /\ is_ok (SendOutcome call) = true)
      /\ (save_refused env w req ->
          repo (fst (ProcessTransaction ttl env w req)) = repo w
          /\ In (Logger.ErrorTrx (ReqTrxID req)
                   "Failed to save transaction to database")
                (logs (fst (ProcessTransaction ttl env w req))))).
Proof.
  split; [|split; [|split]].
  - unfold fails_before_send. split.
    + unfold ProcessTransaction.
      destruct (GetByTrxID _ _ _ _) as [[r|]|e] eqn:Hg; eauto.
      destruct (ValidateDestination _ _) as [[jid ty]|e] eqn:Hv; eauto.
      destruct (SendMessage _ _ _) as [calls [mid|e]] eqn:Hs.
      * destruct (Save _ _ _ _). discriminate.
      * intros _. right. right. right. exists jid, ty, e.
        rewrite Hs. auto.
    + intros H.
      destruct (is_ok (snd (ProcessTransaction ttl env w req))) eqn:Hok;
        [|reflexivity].
      apply success_iff in Hok as [jid [ty [mid [Hg [Hv Hs]]]]].
      destruct H as [[e H]|[[r H]|[[e H]|[jid' [ty' [e [H1 H2]]]]]]];
        congruence.
  - apply failure_leaves_store.
  - intros fault now. apply result_ignores_save.
  - intros Hok. split.
    + apply success_iff in Hok as [jid [ty [mid [Hg [Hv Hs]]]]].
      rewrite (message_sent ttl env w req jid ty mid Hg Hv Hs). simpl.
      eexists. split; reflexivity.
    + apply refused_save_is_logged. exact Hok.
Qed.

(** Every world reached from the empty table by calls and sweeps keeps
    the transaction ids of its rows distinct. *)
Lemma ProcessTransaction_unique (ttl : Duration) (env : Env) (w : World)
    (req : TransactionRequest) :
  unique_trx (repo w) ->
  unique_trx (repo (fst (ProcessTransaction ttl env w req))).
Proof.
  intros Hu. unfold ProcessTransaction.
  destruct (GetByTrxID _ _ _ _) as [[r|]|e]; simpl; auto.
  destruct (ValidateDestination _ _) as [[jid ty]|e]; simpl; auto.
  destruct (SendMessage _ _ _) as [sent [mid|e]]; simpl; auto.
  pose proof (Save_unique (repo w)
                (newRecord req mid jid ty (nowSent env) ttl)
                (nowInsert env) (saveFault env) Hu) as Hs.
  destruct (Save _ _ _ _) as [repo' saveErr]. exact Hs.
Qed.

Lemma cleanupTick_unique (w : World) (now : Time) (fault : option error) :
  unique_trx (repo w) -> unique_trx (repo (cleanupTick w now fault)).
Proof.
  intros Hu. unfold cleanupTick.
  pose proof (CleanupExpired_unique (repo w) now fault Hu) as Hc.
  destruct (CleanupExpired _ _ _) as [repo' res]. exact Hc.
Qed.

(** The rows that [ProcessTransaction] adds are stamped with the clock
    reading of the call and expire one TTL later. *)
Lemma created_with_ttl (ttl : Duration) (env : Env) (w : World)
    (req : TransactionRequest) (r : TransactionRecord) :
  In r (rows (repo (fst (ProcessTransaction ttl env w req)))) ->
  ~ In r (rows (repo w)) ->
  TrxID r = ReqTrxID req
  /\ SentAt r = nowSent env
  /\ ExpiresAt r = Add (SentAt r) ttl.
Proof.
  unfold ProcessTransaction.
  destruct (GetByTrxID _ _ _ _) as [[x|]|e]; simpl; try tauto.
  destruct (ValidateDestination _ _) as [[jid ty]|e]; simpl; try tauto.
  destruct (SendMessage _ _ _) as [sent [mid|e]]; simpl; try tauto.
  unfold Save. destruct (saveFault env); simpl; try tauto.
  destruct (trx_id_taken _ _); simpl; try tauto.
  intros Hin Hnew. apply in_app_or in Hin as [Hin|[<-|[]]]; [tauto|].
  simpl. auto.
Qed.

(** *** Reuse of a transaction id after expiry *)

Example stale_row_is_not_found :
  GetByTrxID (repo (Scenario.worldWith Scenario.staleTrx2)) "TRX2" 2 None
  = Ok None.
Proof. reflexivity. Qed.

(** The expired row being present or not, the second call succeeds for
    the caller; while the row is present, the INSERT is refused by the
    UNIQUE constraint and nothing is stored. *)
Lemma reuse_blocked_while_unpurged (ttl : Duration) (env : Env) (w : World)
    (req : TransactionRequest) (old : TransactionRecord) :
  In old (rows (repo w)) ->
  TrxID old = ReqTrxID req ->
  is_ok (snd (ProcessTransaction ttl env w req)) = true ->
  repo (fst (ProcessTransaction ttl env w req)) = repo w.
Proof.
  intros Hin Htrx Hok.
  apply (refused_save_is_logged ttl env w req Hok). right.
  unfold trx_id_taken. apply existsb_exists. exists old.
  split; [exact Hin|]. apply String.eqb_eq. exact Htrx.
Qed.


(** C3 at the failing input.  TTL 1; ["TRX2"] was admitted at time 0 and
    its row is still in the table at time 2.  The lookup at time 2 finds
    nothing and the second call reports success and sends the message,
    but the INSERT is refused by the UNIQUE constraint on [trx_id]: the
    failure is logged, the table is unchanged, and the lookup that follows
    still finds nothing.  Once the sweeper has run, the same call stores
    the record and the lookup returns it. *)
Theorem C3_reuse_blocked_by_unique_constraint :
  let w := Scenario.worldWith Scenario.staleTrx2 in
  let req := Scenario.forward "TRX2" "0812-3456-7890" in
  let out := ProcessTransaction 1 (Scenario.calm 2) w req in
  let purged := Service.cleanupTick w 2 None in
  let out' := ProcessTransaction 1 (Scenario.calm 2) purged req in
  GetByTrxID (repo w) "TRX2" 2 None = Ok None
  /\ is_ok (snd out) = true
  /\ length (sends (fst out)) = 1%nat
  /\ repo (fst out) = repo w
  /\ In (Logger.ErrorTrx "TRX2" "Failed to save transaction to database")
        (logs (fst out))
  /\ GetByTrxID (repo (fst out)) "TRX2" 2 None = Ok None
  /\ rows (repo purged) = []
  /\ is_ok (snd out') = true
  /\ exists r, GetByTrxID (repo (fst out')) "TRX2" 2 None = Ok (Some r)
               /\ SentAt r = 2 /\ ExpiresAt r = 3.
Proof.
  vm_compute. repeat split; auto.
  eexists. repeat split.
Qed.

End ServiceFacts.

(** ** Webhook delivery *)

Module OtomaxFacts.
Import Go Model Otomax OtomaxSpec.

Example three_retries_schedule :
  let out := SendWebhook (config 3) alwaysDown samplePayload "TRX1" in
  fst out = Some (DeliveryFailed 4 (UnexpectedStatus 500))
  /\ posts (snd out) = [0; 1; 2; 3]
  /\ sleeps (snd out) = [1 * Second; 2 * Second; 4 * Second].
Proof. repeat split. Qed.

Example recovers_on_second_retry :
  let out := SendWebhook (config 3) (recoversAt 2) samplePayload "TRX1" in
  fst out = None
  /\ posts (snd out) = [0; 1; 2]
  /\ sleeps (snd out) = [1 * Second; 2 * Second].
Proof. repeat split. Qed.

Example no_attempt_when_negative :
  SendWebhook (config (-1)) alwaysDown samplePayload "TRX1"
  = (Some (DeliveryFailedNil 0), []).
Proof. reflexivity. Qed.

Lemma send_ok_iff (o : HttpOutcome) :
  send o = None <-> exists c, o = Responded c /\ 200 <= c < 300.
Proof.
  destruct o as [e|e|e|c]; simpl;
    try (split; [discriminate|intros [? [? ?]]; discriminate]).
  destruct ((c <? 200) || (300 <=? c)) eqn:H.
  - split; [discriminate|]. intros [c' [[= <-] Hc]].
    apply orb_true_iff in H as [H|H]; lia.
  - apply orb_false_iff in H as [H1 H2]. split; [|reflexivity].
    intros _. exists c. split; [reflexivity|lia].
Qed.

(** One turn of the loop. *)
Lemma attempts_S (endpoint : Endpoint) (payload : WebhookPayload)
    (trxID : string) (total : Z) (n : nat) (a : Z) (lastErr : option error) :
  attempts endpoint payload trxID total (S n) a lastErr =
  match send (endpoint a) with
  | None =>
      (None,
       (if 0 <? a
        then [Logged (Logger.WarnTrx trxID "Retrying webhook delivery");
              Slept (backoff a)]
        else [])
       ++ [Posted a payload]
       ++ (if 0 <? a
           then [Logged (Logger.InfoTrx trxID "Webhook delivered")]
           else []))
  | Some err =>
      (fst (attempts endpoint payload trxID total n (a + 1) (Some err)),
       (if 0 <? a
        then [Logged (Logger.WarnTrx trxID "Retrying webhook delivery");
              Slept (backoff a)]
        else [])
       ++ [Posted a payload;
           Logged (Logger.WarnTrx trxID "Webhook delivery failed")]
       ++ snd (attempts endpoint payload trxID total n (a + 1) (Some err)))
  end.
Proof.
  simpl. destruct (send (endpoint a)); [|reflexivity].
  destruct (attempts _ _ _ _ n (a + 1) _). reflexivity.
Qed.

Section Loop.

Variable endpoint : Endpoint.
Variable payload : WebhookPayload.
Variable trxID : string.
Variable total : Z.





End Loop.


Lemma backoff_seconds (i : Z) :
  1 <= i <= 34 -> backoff i = 2 ^ (i - 1) * Second.
Proof.
  intros Hi. unfold backoff, pow2_duration.
  replace (i - 1 <? 0) with false by (symmetry; apply Z.ltb_ge; lia).
  replace (i - 1 <=? 62) with true by (symmetry; apply Z.leb_le; lia).
  unfold wrap64, Second.
  assert (H0 : 1 <= 2 ^ (i - 1)) by (apply Z.pow_le_mono_r with (b := 0); lia).
  assert (H1 : 2 ^ (i - 1) <= 2 ^ 33) by (apply Z.pow_le_mono_r; lia).
  change (2 ^ 33) with 8589934592 in H1.
  rewrite Z.mod_small; [lia|].
  change (2 ^ 63) with 9223372036854775808.
  change (2 ^ 64) with 18446744073709551616. lia.
Qed.




End OtomaxFacts.

(** ** The HTTP handler *)

Module HandlerFacts.
Import Go Model Handler HandlerSpec.

Example well_formed_goes_through :
  let out := ForwardTransaction plainTime acceptAll
               (Tracker.NewMessageTracker 1000) 200 wellFormed in
  StatusCode (response out) = 200 /\ processed out = [request_of wellFormed].
Proof. vm_compute. split; reflexivity. Qed.

Example empty_trxid_is_rejected :
  let q := {| destination := "0812-3456-7890"; trxid := "";
              descriptions := "top up"; instructions := "please confirm" |} in
  let out := ForwardTransaction plainTime acceptAll
               (Tracker.NewMessageTracker 1000) 200 q in
  StatusCode (response out) = 400
  /\ ErrorCode (response out) = Some "ERR_MISSING_PARAMETER"
  /\ processed out = [].
Proof. vm_compute. repeat split. Qed.

Example error_code_of_invalid_destination :
  mapErrorCode plainTime
    (Wrap "invalid destination" (New "invalid phone number format"))
  = "ERR_INVALID_DESTINATION".
Proof. vm_compute. reflexivity. Qed.

Lemma eqb_empty (s : string) : String.eqb s "" = true <-> s = "".
Proof. apply String.eqb_eq. Qed.

Lemma missing_field_iff (q : Query) :
  (String.eqb (destination q) "" || String.eqb (trxid q) ""
   || String.eqb (descriptions q) "" || String.eqb (instructions q) "") = true
  <-> missing_field q.
Proof.
  unfold missing_field. rewrite !orb_true_iff, !eqb_empty. tauto.
Qed.

Lemma oversized_iff (q : Query) :
  ((4096 <? len (descriptions q)) || (4096 <? len (instructions q))) = true
  <-> oversized q.
Proof.
  unfold oversized. rewrite orb_true_iff, !Z.ltb_lt. tauto.
Qed.


Lemma tracked_iff (mt : Tracker.MessageTracker) (now : Time) (trxID : string) :
  Tracker.GetByTrxID mt now trxID <> None <-> tracked mt now trxID.
Proof.
  unfold Tracker.GetByTrxID, Tracker.range, tracked. split.
  - destruct (find _ _) as [info|] eqn:Hf; [|congruence]. intros _.
    apply find_some in Hf as [Hin Hp].
    apply andb_true_iff in Hp as [H1 H2].
    apply String.eqb_eq in H1. apply Z.ltb_lt in H2.
    apply list_elem_of_In, list_elem_of_fmap in Hin as [[k i] [-> Hin]].
    apply elem_of_map_to_list in Hin.
    exists k, i. auto.
  - intros [k [info [Hl [Ht Hn]]]] Hnone.
    assert (Hin : In info (map_to_list (Tracker.cache mt)).*2).
    { apply list_elem_of_In, list_elem_of_fmap. exists (k, info).
      split; [reflexivity|]. apply elem_of_map_to_list. exact Hl. }
    pose proof (find_none _ _ Hnone info Hin) as Hp. simpl in Hp.
    apply andb_false_iff in Hp as [Hp|Hp].
    + apply String.eqb_neq in Hp. congruence.
    + unfold Before in Hp. apply Z.ltb_ge in Hp. lia.
Qed.

(** In the in-memory revision the lookup by chat returns an unexpired
    entry for the chat: the first that the iteration meets, with no regard
    to which was sent last. *)
Lemma GetByChat_sound (mt : Tracker.MessageTracker) (now : Time)
    (chatJID : string) (info : TrackingInfo) :
  Tracker.GetByChat mt now chatJID = Some info ->
  (exists k, Tracker.cache mt !! k = Some info)
  /\ InfoDestination info = chatJID
  /\ now < InfoExpiresAt info.
Proof.
  unfold Tracker.GetByChat, Tracker.range. intros Hf.
  apply find_some in Hf as [Hin Hp].
  apply andb_true_iff in Hp as [H1 H2].
  apply String.eqb_eq in H1. apply Z.ltb_lt in H2.
  apply list_elem_of_In, list_elem_of_fmap in Hin as [[k i] [-> Hin]].
  apply elem_of_map_to_list in Hin. eauto.
Qed.

(** In the in-memory revision a tracked message is found by its
    transaction id until its own expiry, whatever older entries remain. *)
Lemma Track_tracked (mt : Tracker.MessageTracker) (now q : Time)
    (info : TrackingInfo) :
  q < Add now (Tracker.ttl mt) ->
  tracked (Tracker.Track mt now info) q (InfoTrxID info).
Proof.
  intros Hq. unfold tracked, Tracker.Track. simpl.
  eexists. eexists. split; [apply lookup_insert_eq|].
  simpl. split; [reflexivity|exact Hq].
Qed.

Section Handling.

Variable formatRFC3339 : Time -> string.
Variable ProcessTransaction :
  Tracker.MessageTracker -> TransactionRequest ->
  Tracker.MessageTracker * Result TransactionData.

Lemma rejected_missing (mt : Tracker.MessageTracker) (now : Time) (q : Query) :
  missing_field q ->
  ForwardTransaction formatRFC3339 ProcessTransaction mt now q
  = {| response := sendErrorResponse "ERR_MISSING_PARAMETER"
                     "Missing required parameters" StatusBadRequest;
       processed := []; tracker := mt; logged := [] |}.
Proof.
  intros H. apply missing_field_iff in H.
  unfold ForwardTransaction. rewrite H. reflexivity.
Qed.

Lemma rejected_oversized (mt : Tracker.MessageTracker) (now : Time)
    (q : Query) :
  ~ missing_field q -> oversized q ->
  ForwardTransaction formatRFC3339 ProcessTransaction mt now q
  = {| response := sendErrorResponse "ERR_INVALID_PARAMETER"
                     "Description or instruction too long (max 4096 chars)"
                     StatusBadRequest;
       processed := []; tracker := mt; logged := [] |}.
Proof.
  intros Hm Ho. apply oversized_iff in Ho.
  unfold ForwardTransaction.
  destruct (_ || _ || _ || String.eqb (instructions q) "") eqn:E.
  - apply missing_field_iff in E. contradiction.
  - rewrite Ho. reflexivity.
Qed.

Lemma passed_validation (mt : Tracker.MessageTracker) (now : Time)
    (q : Query) :
  ~ missing_field q -> ~ oversized q ->
  ForwardTransaction formatRFC3339 ProcessTransaction mt now q =
  match Tracker.GetByTrxID mt now (trxid q) with
  | Some _ =>
      {| response := sendErrorResponse "ERR_DUPLICATE_TRANSACTION"
                       "Transaction with this TrxID already exists and is still being tracked"
                       StatusConflict;
         processed := []; tracker := mt;
         logged := [Logger.WarnTrx (trxid q) "Duplicate transaction detected"] |}
  | None =>
      match snd (ProcessTransaction mt (request_of q)) with
      | Err e =>
          {| response := sendErrorResponse (mapErrorCode formatRFC3339 e)
                           (ErrorText formatRFC3339 e)
                           StatusInternalServerError;
             processed := [request_of q];
             tracker := fst (ProcessTransaction mt (request_of q));
             logged := [Logger.InfoTrx (trxid q) "New transaction request";
                        Logger.ErrorTrx (trxid q)
                          "Failed to process transaction"] |}
      | Ok data =>
          {| response := sendSuccessResponse data;
             processed := [request_of q];
             tracker := fst (ProcessTransaction mt (request_of q));
             logged := [Logger.InfoTrx (trxid q) "New transaction request"] |}
      end
  end.
Proof.
  intros Hm Ho. unfold ForwardTransaction.
  destruct (_ || _ || _ || String.eqb (instructions q) "") eqn:E.
  { apply missing_field_iff in E. contradiction. }
  destruct ((4096 <? len (descriptions q)) || (4096 <? len (instructions q)))
    eqn:E2.
  { apply oversized_iff in E2. contradiction. }
  destruct (Tracker.GetByTrxID mt now (trxid q)); [reflexivity|].
  fold (request_of q).
  destruct (ProcessTransaction mt (request_of q)) as [mt' [data|e]];
    reflexivity.
Qed.

Lemma missing_field_dec (q : Query) : missing_field q \/ ~ missing_field q.
Proof.
  destruct (String.eqb (destination q) "" || String.eqb (trxid q) ""
            || String.eqb (descriptions q) ""
            || String.eqb (instructions q) "") eqn:E.
  - left. apply missing_field_iff. exact E.
  - right. intros H. apply missing_field_iff in H. congruence.
Qed.

Lemma oversized_dec (q : Query) : oversized q \/ ~ oversized q.
Proof. unfold oversized. lia. Qed.


End Handling.


End HandlerFacts.

(** ** Concurrent calls *)

Module ConcurrentFacts.
Import Go Model Repository RepositorySpec RepositoryFacts WhatsApp Service
       ServiceSpec ServiceFacts Concurrent ConcurrentSpec.

Example one_after_the_other :
  map result (calls (run race oneAfterTheOther))
  = [Some (Ok {| DataTrxID := "TRX1";
                 DataDestination := "6281211111111@s.whatsapp.net";
                 DataDestinationType := "personal";
                 DataMessageID := "M1";
                 DataTimestamp := 100 |});
     Some (Err (DuplicateTransaction "TRX1" 100))].
Proof. vm_compute. reflexivity. Qed.

(** The stages, run in a row, are [ProcessTransaction]. *)
Lemma three_steps (ttl : Duration) (env : Env) (w : World)
    (req : TransactionRequest) :
  let '(w1, c1) := step w (start ttl env req) in
  let '(w2, c2) := step w1 c1 in
  let '(w3, c3) := step w2 c2 in
  w3 = fst (ProcessTransaction ttl env w req)
  /\ result c3 = Some (snd (ProcessTransaction ttl env w req)).
Proof.
  unfold step, start, ProcessTransaction. simpl.
  destruct (GetByTrxID _ _ _ _) as [[r|]|e]; simpl; auto.
  destruct (ValidateDestination _ _) as [[jid ty]|e]; simpl; auto.
  destruct (SendMessage _ _ _) as [sent [mid|e]]; simpl; auto.
  destruct (Save _ _ _ _) as [repo' saveErr]. simpl. auto.
Qed.






(** *** The table under any schedule *)




(** *** One call under any schedule *)









End ConcurrentFacts.

(** ** More on the repository *)

Module RepositoryMore.
Import Go Repository RepositorySpec RepositoryFacts RepositoryOps.













(** *** Histories *)

Lemma ids_increase_weaken (lo lo' : Z) (l : list TransactionRecord) :
  lo' <= lo -> ids_increase lo l -> ids_increase lo' l.
Proof.
  destruct l as [|r l]; simpl; [auto|]. intros Hle [H1 H2]. split; [lia|auto].
Qed.

Lemma ids_increase_filter (f : TransactionRecord -> bool) (lo : Z)
    (l : list TransactionRecord) :
  ids_increase lo l -> ids_increase lo (List.filter f l).
Proof.
  revert lo. induction l as [|r l IH]; simpl; [auto|].
  intros lo [H1 H2]. destruct (f r); simpl.
  - split; [exact H1|apply IH; exact H2].
  - apply IH. apply (ids_increase_weaken (ID r)); [lia|exact H2].
Qed.

Lemma ids_increase_snoc (lo s : Z) (l : list TransactionRecord)
    (row : TransactionRecord) :
  ids_increase lo l -> (forall r, In r l -> ID r <= s) -> lo <= s ->
  ID row = s + 1 -> ids_increase lo (l ++ [row]).
Proof.
  revert lo. induction l as [|r l IH]; simpl; intros lo Hinc Hle Hlo Hid.
  - split; [lia|exact I].
  - destruct Hinc as [H1 H2]. split; [exact H1|].
    apply IH; auto.
Qed.

Lemma ids_increase_bound (lo : Z) (l : list TransactionRecord) :
  ids_increase lo l -> forall r, In r l -> lo < ID r.
Proof.
  revert lo. induction l as [|a l IH]; simpl; [tauto|].
  intros lo [H1 H2] r [<-|Hin]; [exact H1|].
  specialize (IH (ID a) H2 r Hin). lia.
Qed.

Lemma ids_increase_NoDup (lo : Z) (l : list TransactionRecord) :
  ids_increase lo l -> List.NoDup (map ID l).
Proof.
  revert lo. induction l as [|a l IH]; simpl; intros lo H.
  - constructor.
  - destruct H as [H1 H2]. constructor; [|eapply IH; exact H2].
    intros Hin. apply in_map_iff in Hin as [r [Hr Hin]].
    pose proof (ids_increase_bound (ID a) l H2 r Hin). lia.
Qed.

Lemma apply_op_invariant (t : Table) (op : Op) :
  unique_trx t /\ ids_increase 0 (rows t)
  /\ (forall r, In r (rows t) -> ID r <= seq t) /\ 0 <= seq t ->
  unique_trx (apply_op t op) /\ ids_increase 0 (rows (apply_op t op))
  /\ (forall r, In r (rows (apply_op t op)) -> ID r <= seq (apply_op t op))
  /\ 0 <= seq (apply_op t op)
  /\ seq t <= seq (apply_op t op).
Proof.
  intros [Hu [Hinc [Hle Hseq]]]. destruct op as [record now_db fault|now fault].
  - simpl. split; [apply Save_unique; exact Hu|].
    unfold Save. destruct fault; simpl; [repeat split; auto; lia|].
    destruct (trx_id_taken t (TrxID record)); simpl;
      [repeat split; auto; lia|].
    split; [|split; [|lia]].
    + apply (ids_increase_snoc 0 (seq t)); auto.
    + intros r Hin. apply in_app_or in Hin as [Hin|[<-|[]]].
      * specialize (Hle r Hin). lia.
      * simpl. lia.
  - simpl. split; [apply CleanupExpired_unique; exact Hu|].
    unfold CleanupExpired. destruct fault; simpl; [repeat split; auto; lia|].
    split; [apply ids_increase_filter; exact Hinc|].
    split; [|lia].
    intros r Hin. apply List.filter_In in Hin as [Hin _]. auto.
Qed.

Lemma fold_invariant (history : list Op) (t : Table) :
  unique_trx t /\ ids_increase 0 (rows t)
  /\ (forall r, In r (rows t) -> ID r <= seq t) /\ 0 <= seq t ->
  unique_trx (fold_left apply_op history t)
  /\ ids_increase 0 (rows (fold_left apply_op history t))
  /\ (forall r, In r (rows (fold_left apply_op history t)) ->
                ID r <= seq (fold_left apply_op history t))
  /\ seq t <= seq (fold_left apply_op history t).
Proof.
  revert t. induction history as [|op history IH]; intros t Hinv; simpl.
  - destruct Hinv as [H1 [H2 [H3 H4]]]. repeat split; auto. lia.
  - destruct (apply_op_invariant t op Hinv) as [H1 [H2 [H3 [H4 H5]]]].
    destruct (IH (apply_op t op)) as [G1 [G2 [G3 G4]]]; [auto|].
    repeat split; auto. lia.
Qed.

Lemma after_snoc (history : list Op) (op : Op) :
  after (history ++ [op]) = apply_op (after history) op.
Proof. unfold after. rewrite fold_left_app. reflexivity. Qed.

(** X4. Whatever INSERTs and DELETEs have run on the table since it was
    created, with whatever arguments and faults: no two rows share a
    transaction id, the row ids are positive, grow along the rows (so no
    two rows share an id) and none exceeds the id counter; and every
    further statement leaves the counter where it was or higher, so the id
    of a deleted row is not given out again. *)
Theorem X4_history_invariant (history : list Op) (op : Op) :
  unique_trx (after history)
  /\ ids_increase 0 (rows (after history))
  /\ List.NoDup (map ID (rows (after history)))
  /\ (forall r, In r (rows (after history)) ->
                0 < ID r <= seq (after history))
  /\ seq (after history) <= seq (after (history ++ [op]))
  /\ (forall r, In r (rows (after (history ++ [op]))) ->
                In r (rows (after history)) \/ seq (after history) < ID r).
Proof.
  assert (Hempty : unique_trx Repository.empty
                   /\ ids_increase 0 (rows Repository.empty)
                   /\ (forall r, In r (rows Repository.empty) ->
                                 ID r <= seq Repository.empty)
                   /\ 0 <= seq Repository.empty).
  { split; [apply empty_unique|]. simpl. repeat split; [tauto|lia]. }
  destruct (fold_invariant history Repository.empty Hempty)
    as [H1 [H2 [H3 H4]]].
  fold (after history) in *.
  split; [exact H1|]. split; [exact H2|].
  split; [eapply ids_increase_NoDup; exact H2|].
  split.
  { intros r Hin. split; [|auto].
    apply (ids_increase_bound 0 _ H2 r Hin). }
  rewrite !after_snoc.
  assert (Hinv : unique_trx (after history)
                 /\ ids_increase 0 (rows (after history))
                 /\ (forall r, In r (rows (after history)) ->
                               ID r <= seq (after history))
                 /\ 0 <= seq (after history)).
  { repeat split; auto; simpl in H4; lia. }
  destruct (apply_op_invariant (after history) op Hinv) as [_ [_ [_ [_ G]]]].
  split; [exact G|].
  intros r. destruct op as [record now_db fault|now fault]; simpl.
  - unfold Save. destruct fault; simpl; [tauto|].
    destruct (trx_id_taken _ _); simpl; [tauto|].
    intros Hin. apply in_app_or in Hin as [Hin|[<-|[]]]; [tauto|].
    right. simpl. lia.
  - unfold CleanupExpired. destruct fault; simpl; [tauto|].
    intros Hin. apply List.filter_In in Hin as [Hin _]. tauto.
Qed.




End RepositoryMore.

(** ** More on the transaction service *)

Module ServiceMore.
Import Go Model Repository RepositorySpec RepositoryFacts RepositoryOps
       RepositoryMore WhatsApp Service ServiceSpec ServiceFacts
       ServiceVocabulary.



(** X7. What goes out is the instructions. The text of every message
    that a call sends is the [Instructions] field of its request, and the
    [Descriptions] field has no influence at all: the call ends in the same
    world with the same result whatever that field holds. *)
Theorem X7_only_instructions_sent (ttl : Duration) (env : Env) (w : World)
    (req : TransactionRequest) (d : string) :
  ProcessTransaction ttl env w (with_descriptions req d)
  = ProcessTransaction ttl env w req
  /\ exists calls,
       sends (fst (ProcessTransaction ttl env w req)) = sends w ++ calls
       /\ (length calls <= 1)%nat
       /\ forall call, In call calls -> SentText call = ReqInstructions req.
Proof.
  split; [reflexivity|].
  unfold ProcessTransaction.
  destruct (GetByTrxID _ _ _ _) as [[r|]|e]; simpl;
    try (exists []; rewrite app_nil_r; simpl; split; [reflexivity|];
         split; [lia|tauto]).
  destruct (ValidateDestination _ _) as [[jid ty]|e]; simpl;
    try (exists []; rewrite app_nil_r; simpl; split; [reflexivity|];
         split; [lia|tauto]).
  unfold SendMessage. destruct (IsConnected (wa env)); simpl.
  - destruct (ClientSend (wa env) jid (ReqInstructions req)) as [mid|e]; simpl.
    + destruct (Save _ _ _ _). simpl. eexists. split; [reflexivity|].
      split; [simpl; lia|]. intros call [<-|[]]. reflexivity.
    + eexists. split; [reflexivity|].
      split; [simpl; lia|]. intros call [<-|[]]. reflexivity.
  - exists []. split; [reflexivity|]. split; [simpl; lia|]. intros call [].
Qed.

(** X8. What a success reports. When [ProcessTransaction] succeeds, the
    returned data carries the transaction id of the request, the clock
    reading of the call as timestamp, the validated address and its kind
    (["personal"] or ["group"]), and the message id that the chat network
    returned for the one message sent to that address; and a row that the
    call adds to the table carries the same transaction id, message id,
    address, kind and send time. *)
Theorem X8_success_report (ttl : Duration) (env : Env) (w : World)
    (req : TransactionRequest) (data : TransactionData) :
  snd (ProcessTransaction ttl env w req) = Ok data ->
  DataTrxID data = ReqTrxID req
  /\ DataTimestamp data = nowSent env
  /\ (DataDestinationType data = "personal"
      \/ DataDestinationType data = "group")
  /\ (exists jid,
        ValidateDestination (wa env) (ReqDestination req)
        = Ok (jid, DataDestinationType data)
        /\ DataDestination data = JIDString jid
        /\ sends (fst (ProcessTransaction ttl env w req))
           = sends w ++ [{| SentTo := jid;
                            SentText := ReqInstructions req;
                            SendOutcome := Ok (DataMessageID data) |}])
  /\ (forall r,
        In r (rows (repo (fst (ProcessTransaction ttl env w req)))) ->
        ~ In r (rows (repo w)) ->
        TrxID r = DataTrxID data
        /\ MessageID r = DataMessageID data
        /\ Destination r = DataDestination data
        /\ DestinationType r = DataDestinationType data
        /\ SentAt r = DataTimestamp data).
Proof.
  intros Hres.
  assert (Hok : is_ok (snd (ProcessTransaction ttl env w req)) = true)
    by (rewrite Hres; reflexivity).
  apply success_iff in Hok as [jid [ty [mid [Hg [Hv Hs]]]]].
  rewrite (message_sent ttl env w req jid ty mid Hg Hv Hs) in *.
  simpl in Hres. injection Hres as <-. simpl.
  split; [reflexivity|]. split; [reflexivity|]. split; [|split].
  - unfold ValidateDestination in Hv.
    destruct (Contains _ _).
    + destruct (ParseJID _ _); [|discriminate].
      destruct (GetGroupInfo _ _); [discriminate|].
      injection Hv as _ <-. auto.
    + destruct (String.eqb _ _); [discriminate|].
      destruct (IsOnWhatsApp _ _) as [[|r0 rest]|e]; try discriminate.
      destruct (negb (IsIn r0)); [discriminate|].
      injection Hv as _ <-. auto.
  - exists jid. auto.
  - intros r. unfold Save. destruct (saveFault env); simpl; [tauto|].
    destruct (trx_id_taken _ _); simpl; [tauto|].
    intros Hin Hnew. apply in_app_or in Hin as [Hin|[<-|[]]]; [tauto|].
    simpl. auto.
Qed.

Lemma X8_success_report_witness :
  snd (ProcessTransaction 1000 (Scenario.calm 100) Scenario.freshWorld
         (Scenario.forward "TRX1" "0812-3456-7890"))
  = Ok {| DataTrxID := "TRX1";
          DataDestination := "6281234567890@s.whatsapp.net";
          DataDestinationType := "personal";
          DataMessageID := "M1";
          DataTimestamp := 100 |}
  /\ DataTrxID {| DataTrxID := "TRX1";
                  DataDestination := "6281234567890@s.whatsapp.net";
                  DataDestinationType := "personal";
                  DataMessageID := "M1";
                  DataTimestamp := 100 |}
     = ReqTrxID (Scenario.forward "TRX1" "0812-3456-7890").
Proof.
  split; [reflexivity|].
  exact (proj1 (X8_success_report 1000 (Scenario.calm 100) Scenario.freshWorld
                  (Scenario.forward "TRX1" "0812-3456-7890") _ eq_refl)).
Defined.




End ServiceMore.

(** ** More on the WhatsApp service *)

Module WhatsAppMore.
Import Go Model Repository RepositorySpec RepositoryFacts WhatsApp
       ValidationSpec ValidationFacts CorrelationFacts InboundVocabulary.

Lemma remove_non_digits_app (s1 s2 : string) :
  remove_non_digits (s1 +:+ s2)
  = remove_non_digits s1 +:+ remove_non_digits s2.
Proof.
  induction s1 as [|a s1 IH]; simpl; [reflexivity|].
  destruct (is_digit a); simpl; rewrite IH; reflexivity.
Qed.

Lemma remove_non_digits_id (s : string) :
  all_digits s = true -> remove_non_digits s = s.
Proof.
  induction s as [|a s IH]; simpl; [reflexivity|].
  intros H. apply andb_true_iff in H as [Ha Hs].
  rewrite Ha, IH by exact Hs. reflexivity.
Qed.

Lemma prefix_62 (p : string) :
  HasPrefix p "62" = true ->
  exists rest, p = String "6"%char (String "2"%char rest).
Proof.
  unfold HasPrefix. intros H.
  destruct p as [|a p]; cbn [String.prefix] in H; [discriminate|].
  destruct (ascii_dec "6" a) as [<-|]; [|discriminate].
  destruct p as [|b rest]; cbn [String.prefix] in H; [discriminate|].
  destruct (ascii_dec "2" b) as [<-|]; [|discriminate].
  exists rest. reflexivity.
Qed.

Lemma normalized_fixed (p : string) :
  all_digits p = true -> HasPrefix p "62" = true -> normalized p = p.
Proof.
  intros Hd Hp. unfold normalized. rewrite remove_non_digits_id by exact Hd.
  destruct (prefix_62 p Hp) as [rest ->]. simpl TrimLeft.
  rewrite Hp. reflexivity.
Qed.

(** X10. Normalization of phone numbers does not see formatting.
    Characters that are not ASCII digits can be inserted or removed
    anywhere, and zeros can be put in front, without changing the result;
    and normalizing a result again returns it unchanged. *)
Theorem X10_normalize_ignores_formatting (s1 s2 : string) (c : ascii) :
  (is_digit c = false ->
   normalizePhoneNumber (s1 +:+ String c s2) = normalizePhoneNumber (s1 +:+ s2))
  /\ normalizePhoneNumber (String "0"%char s1) = normalizePhoneNumber s1
  /\ normalizePhoneNumber (normalizePhoneNumber s1) = normalizePhoneNumber s1.
Proof.
  split; [|split].
  - intros Hc. unfold normalizePhoneNumber.
    rewrite !remove_non_digits_app. simpl. rewrite Hc. reflexivity.
  - reflexivity.
  - rewrite (normalizePhoneNumber_normalized s1).
    destruct ((len (normalized s1) <? 11) || (15 <? len (normalized s1)))
      eqn:Hr; [reflexivity|].
    rewrite normalizePhoneNumber_normalized.
    rewrite normalized_fixed
      by (apply normalized_digits || apply normalized_prefix).
    rewrite Hr. reflexivity.
Qed.

(** X11. The kind of a destination is decided by the text ["@g.us"]. An
    accepted destination that contains it is a group: the JID is the one
    parsed from the text and the group lookup succeeded. An accepted
    destination that does not contain it is personal: the JID has the
    normalized number as user and [s.whatsapp.net] as server, so its text
    form is the normalized number followed by ["@s.whatsapp.net"].  A
    destination that contains ["@g.us"] is never read as a phone number:
    it is accepted exactly when it parses and the group lookup
    succeeds. *)
Theorem X11_destination_kind (c : Client) (destination : string) :
  (forall jid ty,
      ValidateDestination c destination = Ok (jid, ty) ->
      (Contains destination "@g.us" = true
       /\ ty = "group"
       /\ ParseJID c destination = Ok jid
       /\ GetGroupInfo c jid = None)
      \/ (Contains destination "@g.us" = false
          /\ ty = "personal"
          /\ jid = NewJID (normalizePhoneNumber destination) DefaultUserServer
          /\ JIDString jid
             = normalizePhoneNumber destination +:+ "@s.whatsapp.net"))
  /\ (Contains destination "@g.us" = true ->
      (is_ok (ValidateDestination c destination) = true
       <-> exists jid, ParseJID c destination = Ok jid
                       /\ GetGroupInfo c jid = None)).
Proof.
  unfold ValidateDestination. split.
  - intros jid ty.
    destruct (Contains destination "@g.us").
    + destruct (ParseJID c destination) as [j|e] eqn:Hp; [|discriminate].
      destruct (GetGroupInfo c j) eqn:Hg; [discriminate|].
      intros [= <- <-]. left. auto.
    + destruct (String.eqb (normalizePhoneNumber destination) "") eqn:He;
        [discriminate|].
      destruct (IsOnWhatsApp _ _) as [[|r0 rest]|e]; try discriminate.
      destruct (negb (IsIn r0)); [discriminate|].
      intros [= <- <-]. right. repeat split.
      unfold JIDString, NewJID, DefaultUserServer. simpl. rewrite He.
      reflexivity.
  - intros ->.
    destruct (ParseJID c destination) as [j|e]; simpl.
    + destruct (GetGroupInfo c j) eqn:Hg; simpl.
      * split; [discriminate|]. intros [jid [[= <-] H]]. congruence.
      * split; [eauto|reflexivity].
    + split; [discriminate|]. intros [jid [H _]]. discriminate.
Qed.


Lemma handling_cases (s : WhatsAppService) (repo : Table) (now : Time)
    (fault : option error) (endpoint : Otomax.Endpoint) (evt : MessageEvent) :
  fst (handleIncomingMessage s repo now fault endpoint evt) =
  if IsFromMe (Info evt) then IgnoredFromMe
  else if negb (repoSet s) then IgnoredNoRepository
  else if negb (whitelistGate (webhookWhitelist s)
                  (JIDString (Chat (Info evt))))
  then IgnoredNotWhitelisted
  else
    match GetByDestination repo (JIDString (Chat (Info evt))) now fault with
    | Err e => LookupFailed e
    | Ok None => Untracked
    | Ok (Some r) =>
        match messageContent (Msg evt) with
        | None => NilDereference
        | Some content =>
            Correlated (buildPayload evt r content) (TrxID r)
              match otomaxService s with
              | None => None
              | Some cfg =>
                  Some (Otomax.SendWebhook cfg endpoint
                          (buildPayload evt r content) (TrxID r))
              end
        end
    end.
Proof.
  unfold handleIncomingMessage.
  destruct (IsFromMe (Info evt)); [reflexivity|].
  destruct (negb (repoSet s)); [reflexivity|].
  destruct (negb (whitelistGate _ _)); [reflexivity|].
  destruct (GetByDestination _ _ _ _) as [[r|]|e]; try reflexivity.
  destruct (messageContent (Msg evt)); try reflexivity.
  destruct (otomaxService s) as [cfg|]; try reflexivity.
  destruct (Otomax.SendWebhook _ _ _ _) as [err effects]. reflexivity.
Qed.


(** X13. The fields of a forwarded reply. When the handling of an event
    produces a payload for the record it found: the payload is marked as a
    reply exactly when the message carries a context (quotes a message);
    the original message id is the id of the quoted message when the
    context names one, and the message id of the tracked record otherwise;
    the text is the plain conversation text when there is one, and the
    text of the extended message otherwise; the chat kind is the
    destination kind of the record, and the sender is the user part of the
    sender's JID with the pushed display name. *)
Theorem X13_reply_fields (s : WhatsAppService) (repo : Table) (now : Time)
    (fault : option error) (endpoint : Otomax.Endpoint) (evt : MessageEvent)
    (payload : WebhookPayload) (trxID : string)
    (delivery : option (option error * list Otomax.Effect)) :
  fst (handleIncomingMessage s repo now fault endpoint evt)
    = Correlated payload trxID delivery ->
  exists r,
    GetByDestination repo (JIDString (Chat (Info evt))) now fault = Ok (Some r)
    /\ trxID = TrxID r
    /\ Event payload = "message_received"
    /\ Type_ (Message payload) = "text"
    /\ Timestamp (Message payload) = EvtTimestamp (Info evt)
    /\ Phone (Sender_ payload) = User (SenderJID (Info evt))
    /\ Name (Sender_ payload) = PushName (Info evt)
    /\ ChatType (Context payload) = DestinationType r
    /\ (IsReply (Context payload) = true <-> quotes evt <> None)
    /\ OriginalMessageID (Context payload)
       = match quotes evt with
         | Some ci =>
             match StanzaID ci with Some id => id | None => MessageID r end
         | None => MessageID r
         end
    /\ (quotes evt = None -> QuotedMessageContent (Context payload) = "")
    /\ Some (Content (Message payload))
       = match Conversation (Msg evt) with
         | Some text => Some text
         | None =>
             match Extended (Msg evt) with
             | Some ext => Text ext
             | None => Some ""
             end
         end.
Proof.
  rewrite handling_cases.
  destruct (IsFromMe (Info evt)); [discriminate|].
  destruct (negb (repoSet s)); [discriminate|].
  destruct (negb (whitelistGate _ _)); [discriminate|].
  destruct (GetByDestination _ _ _ _) as [[r|]|e]; try discriminate.
  destruct (messageContent (Msg evt)) as [content|] eqn:Hc; try discriminate.
  intros [= <- <- _]. exists r.
  split; [reflexivity|]. split; [reflexivity|].
  unfold buildPayload, quotes. simpl.
  repeat (split; [reflexivity|]).
  split; [|split; [|split; [|split]]].
  - destruct (Extended (Msg evt)) as [ext|]; [|reflexivity].
    destruct (Context_ ext); reflexivity.
  - destruct (Extended (Msg evt)) as [ext|]; simpl.
    + destruct (Context_ ext); simpl; split; congruence.
    + split; congruence.
  - destruct (Extended (Msg evt)) as [ext|]; [|reflexivity].
    destruct (Context_ ext); reflexivity.
  - destruct (Extended (Msg evt)) as [ext|]; [|reflexivity].
    destruct (Context_ ext); [discriminate|reflexivity].
  - unfold messageContent in Hc. symmetry. exact Hc.
Qed.

Lemma X13_reply_fields_witness :
  fst (handleIncomingMessage Scenario.bridge Scenario.twoForA 250 None
         Scenario.deadEndpoint Scenario.replyOnA)
  = Correlated (buildPayload Scenario.replyOnA Scenario.newer "OK")
      "TRX-NEW" None
  /\ exists r,
       GetByDestination Scenario.twoForA
         (JIDString (Chat (Info Scenario.replyOnA))) 250 None = Ok (Some r)
       /\ "TRX-NEW" = TrxID r.
Proof.
  split; [reflexivity|].
  destruct (X13_reply_fields Scenario.bridge Scenario.twoForA 250 None
              Scenario.deadEndpoint Scenario.replyOnA
              (buildPayload Scenario.replyOnA Scenario.newer "OK")
              "TRX-NEW" None eq_refl) as [r [H1 [H2 _]]].
  exists r. split; [exact H1|exact H2].
Defined.



End WhatsAppMore.

(** ** More on the webhook delivery *)

Module OtomaxMore.
Import Go Model Otomax OtomaxSpec OtomaxFacts DeliveryVocabulary.

Section Run.

Variable endpoint : Endpoint.
Variable payload : WebhookPayload.
Variable trxID : string.
Variable total : Z.

Lemma attempts_sleeps (n : nat) (a : Z) (lastErr : option error) :
  sleeps (snd (attempts endpoint payload trxID total n a lastErr))
  = map backoff
      (List.filter (fun i => 0 <? i)
         (posts (snd (attempts endpoint payload trxID total n a lastErr)))).
Proof.
  revert a lastErr. induction n as [|n IH]; intros a lastErr; [reflexivity|].
  rewrite attempts_S. destruct (send (endpoint a)) as [err|].
  - specialize (IH (a + 1) (Some err)).
    unfold posts, sleeps in *. simpl.
    destruct (0 <? a) eqn:Ha; simpl; rewrite ?Ha; simpl; rewrite IH;
      reflexivity.
  - unfold posts, sleeps.
    destruct (0 <? a) eqn:Ha; simpl; rewrite ?Ha; reflexivity.
Qed.

Lemma attempts_first_success (j : nat) (n : nat) (a : Z)
    (lastErr : option error) :
  (j < n)%nat ->
  (forall i, a <= i < a + Z.of_nat j -> send (endpoint i) <> None) ->
  send (endpoint (a + Z.of_nat j)) = None ->
  fst (attempts endpoint payload trxID total n a lastErr) = None
  /\ posts (snd (attempts endpoint payload trxID total n a lastErr))
     = count_from a (S j)
  /\ failure_warnings (snd (attempts endpoint payload trxID total n a lastErr))
     = j.
Proof.
  revert n a lastErr. induction j as [|j IH]; intros n a lastErr Hn Hfail Hok.
  - destruct n as [|n]; [lia|]. rewrite attempts_S.
    replace (a + Z.of_nat 0) with a in Hok by lia. rewrite Hok.
    unfold posts, failure_warnings. simpl.
    destruct (0 <? a); repeat split.
  - destruct n as [|n]; [lia|]. rewrite attempts_S.
    destruct (send (endpoint a)) as [err|] eqn:Hs;
      [|exfalso; apply (Hfail a); [lia|exact Hs]].
    destruct (IH n (a + 1) (Some err)) as [H1 [H2 H3]].
    + lia.
    + intros i Hi. apply Hfail. lia.
    + replace (a + 1 + Z.of_nat j) with (a + Z.of_nat (S j)) by lia.
      exact Hok.
    + simpl. split; [exact H1|].
      unfold posts, failure_warnings in *.
      destruct (0 <? a); simpl; rewrite H2, H3; repeat split.
Qed.

End Run.

Lemma filter_positive_count_from (a : Z) (k : nat) :
  0 < a -> List.filter (fun i => 0 <? i) (count_from a k) = count_from a k.
Proof.
  revert a. induction k as [|k IH]; intros a Ha; simpl; [reflexivity|].
  replace (0 <? a) with true by (symmetry; apply Z.ltb_lt; lia).
  rewrite IH by lia. reflexivity.
Qed.

Lemma sum_backoff (k : nat) (a : Z) :
  1 <= a -> a + Z.of_nat k <= 35 ->
  fold_right Z.add 0 (map backoff (count_from a k))
  = (2 ^ (a - 1 + Z.of_nat k) - 2 ^ (a - 1)) * Second.
Proof.
  revert a. induction k as [|k IH]; intros a Ha Hk.
  - cbn [count_from map fold_right]. change (Z.of_nat 0) with 0.
    rewrite Z.add_0_r, Z.sub_diag. reflexivity.
  - cbn [count_from map fold_right]. rewrite IH by lia.
    rewrite backoff_seconds by lia.
    replace (a + 1 - 1 + Z.of_nat k) with (a - 1 + Z.of_nat (S k)) by lia.
    replace (a + 1 - 1) with (a - 1 + 1) by lia.
    replace (2 ^ (a - 1 + 1)) with (2 * 2 ^ (a - 1))
      by (rewrite Z.pow_add_r by lia; lia).
    unfold Second. lia.
Qed.

(** X15. Delivery stops at the first success. When request [k]
    ([0 <= k <= RetryCount]) is the first to be answered with a 2xx
    status, [SendWebhook] returns nil after exactly the requests
    [0, ..., k]; it has logged [k] failure warnings and slept
    [backoff 1, ..., backoff k], which for [k <= 34] adds up to
    [2^k - 1] seconds. *)
Theorem X15_stops_at_first_success (cfg : OtomaxConfig) (endpoint : Endpoint)
    (payload : WebhookPayload) (trxID : string) (k : nat) :
  Z.of_nat k <= RetryCount cfg ->
  (forall i, 0 <= i < Z.of_nat k -> send (endpoint i) <> None) ->
  send (endpoint (Z.of_nat k)) = None ->
  fst (SendWebhook cfg endpoint payload trxID) = None
  /\ posts (snd (SendWebhook cfg endpoint payload trxID))
     = count_from 0 (S k)
  /\ failure_warnings (snd (SendWebhook cfg endpoint payload trxID)) = k
  /\ sleeps (snd (SendWebhook cfg endpoint payload trxID))
     = map backoff (count_from 1 k)
  /\ (Z.of_nat k <= 34 ->
      total_sleep (snd (SendWebhook cfg endpoint payload trxID))
      = (2 ^ Z.of_nat k - 1) * Second).
Proof.
  intros Hk Hfail Hok. unfold SendWebhook, total_sleep.
  destruct (attempts_first_success endpoint payload trxID
              (RetryCount cfg + 1) k (Z.to_nat (RetryCount cfg + 1)) 0 None)
    as [H1 [H2 H3]]; [lia|exact Hfail|exact Hok|].
  assert (Hs : sleeps (snd (attempts endpoint payload trxID
                              (RetryCount cfg + 1)
                              (Z.to_nat (RetryCount cfg + 1)) 0 None))
               = map backoff (count_from 1 k)).
  { rewrite attempts_sleeps, H2. simpl.
    rewrite filter_positive_count_from by lia. reflexivity. }
  split; [exact H1|]. split; [exact H2|]. split; [exact H3|].
  split; [exact Hs|].
  intros H34. rewrite Hs, sum_backoff by lia.
  replace (1 - 1 + Z.of_nat k) with (Z.of_nat k) by lia.
  change (2 ^ (1 - 1)) with 1. reflexivity.
Qed.

Lemma X15_stops_at_first_success_witness :
  Z.of_nat 2 <= RetryCount (config 3)
  /\ (forall i, 0 <= i < Z.of_nat 2 -> send (recoversAt 2 i) <> None)
  /\ send (recoversAt 2 (Z.of_nat 2)) = None
  /\ fst (SendWebhook (config 3) (recoversAt 2) samplePayload "TRX1") = None.
Proof.
  assert (H1 : Z.of_nat 2 <= RetryCount (config 3)) by (simpl; lia).
  assert (H2 : forall i, 0 <= i < Z.of_nat 2 -> send (recoversAt 2 i) <> None).
  { intros i Hi. unfold recoversAt.
    replace (i <? 2) with true by (symmetry; apply Z.ltb_lt; lia).
    discriminate. }
  split; [exact H1|]. split; [exact H2|]. split; [reflexivity|].
  exact (proj1 (X15_stops_at_first_success (config 3) (recoversAt 2)
                  samplePayload "TRX1" 2 H1 H2 eq_refl)).
Defined.

End OtomaxMore.

(** ** The in-memory tracker *)

Module TrackerMore.
Import Go Model Tracker HandlerSpec HandlerFacts TrackerVocabulary.

(** X16. Track and look up. After [Track] at time [now], the lookup by
    the message id returns the tracked entry, with the expiry [now + ttl]
    in place of whatever expiry the caller had put in, at every time
    before that instant, and nothing from that instant on; lookups of
    other message ids answer as before; and the tracker has grown by one
    entry when the message id was new and has kept its size when an entry
    with that id was replaced. *)
Theorem X16_track_then_lookup (mt : MessageTracker) (now q : Time)
    (info : TrackingInfo) :
  (q < now + ttl mt ->
   GetByMessageID (Track mt now info) q (InfoMessageID info)
   = Some (stamped info (now + ttl mt)))
  /\ (now + ttl mt <= q ->
      GetByMessageID (Track mt now info) q (InfoMessageID info) = None)
  /\ (forall id, id <> InfoMessageID info ->
        GetByMessageID (Track mt now info) q id = GetByMessageID mt q id)
  /\ Count (Track mt now info)
     = match cache mt !! InfoMessageID info with
       | Some _ => Count mt
       | None => Count mt + 1
       end
  /\ ttl (Track mt now info) = ttl mt.
Proof.
  unfold GetByMessageID, Track, Count, stamped, Add, Before. simpl.
  split; [|split; [|split; [|split]]].
  - intros Hq. rewrite lookup_insert_eq. simpl.
    replace (q <? now + ttl mt) with true by (symmetry; apply Z.ltb_lt; lia).
    reflexivity.
  - intros Hq. rewrite lookup_insert_eq. simpl.
    replace (q <? now + ttl mt) with false by (symmetry; apply Z.ltb_ge; lia).
    reflexivity.
  - intros id Hid. rewrite lookup_insert_ne by congruence. reflexivity.
  - rewrite map_size_insert.
    destruct (cache mt !! InfoMessageID info); simpl; lia.
  - reflexivity.
Qed.

Lemma cleanup_lookup (mt : MessageTracker) (now : Time) (k : string)
    (info : TrackingInfo) :
  cache (fst (CleanupExpired mt now)) !! k = Some info
  <-> cache mt !! k = Some info /\ now <= InfoExpiresAt info.
Proof.
  unfold CleanupExpired. simpl. rewrite map_lookup_filter_Some. simpl.
  unfold After. rewrite Z.ltb_ge. reflexivity.
Qed.

(** X17. The sweep of the in-memory tracker. [CleanupExpired] at [now]
    keeps exactly the entries whose expiry is not before [now] and returns
    the number it removed; an entry that expires exactly at [now] stays in
    the map although no lookup returns it any more; and no lookup by
    message id, transaction id or chat at [now] or later is answered
    differently because of the sweep. *)
Theorem X17_tracker_sweep (mt : MessageTracker) (now : Time) :
  (forall k info,
      cache (fst (CleanupExpired mt now)) !! k = Some info
      <-> cache mt !! k = Some info /\ now <= InfoExpiresAt info)
  /\ snd (CleanupExpired mt now)
     = Count mt - Count (fst (CleanupExpired mt now))
  /\ 0 <= snd (CleanupExpired mt now)
  /\ (forall q id,
        now <= q ->
        GetByMessageID (fst (CleanupExpired mt now)) q id
        = GetByMessageID mt q id)
  /\ (forall q trxID,
        now <= q ->
        (tracked (fst (CleanupExpired mt now)) q trxID <-> tracked mt q trxID))
  /\ (forall q chatJID,
        now <= q ->
        (tracked_chat (fst (CleanupExpired mt now)) q chatJID
         <-> tracked_chat mt q chatJID))
  /\ (forall k info,
        cache mt !! k = Some info -> InfoExpiresAt info = now ->
        cache (fst (CleanupExpired mt now)) !! k = Some info
        /\ GetByMessageID mt now k = None).
Proof.
  split; [apply cleanup_lookup|].
  split; [reflexivity|].
  split.
  { unfold CleanupExpired. simpl.
    pose proof (map_size_filter
                  (fun kv : string * TrackingInfo =>
                     After now (InfoExpiresAt kv.2) = false) (cache mt)).
    lia. }
  split.
  { intros q id Hq. unfold GetByMessageID.
    destruct (cache mt !! id) as [info|] eqn:Hl.
    - destruct (Z.le_gt_cases now (InfoExpiresAt info)) as [Hle|Hgt].
      + rewrite (proj2 (cleanup_lookup mt now id info) (conj Hl Hle)).
        reflexivity.
      + replace (Before q (InfoExpiresAt info)) with false
          by (symmetry; apply Z.ltb_ge; lia).
        destruct (cache (fst (CleanupExpired mt now)) !! id) as [i'|] eqn:Hl';
          [|reflexivity].
        apply cleanup_lookup in Hl' as [Hl' Hle].
        rewrite Hl in Hl'. injection Hl' as <-. lia.
    - destruct (cache (fst (CleanupExpired mt now)) !! id) as [i'|] eqn:Hl';
        [|reflexivity].
      apply cleanup_lookup in Hl' as [Hl' _]. congruence. }
  split.
  { intros q trxID Hq. unfold tracked. split.
    - intros [k [info [Hl [Ht Hx]]]]. apply cleanup_lookup in Hl as [Hl _].
      eauto.
    - intros [k [info [Hl [Ht Hx]]]]. exists k, info.
      split; [apply cleanup_lookup; split; [exact Hl|lia]|auto]. }
  split.
  { intros q chatJID Hq. unfold tracked_chat. split.
    - intros [k [info [Hl [Ht Hx]]]]. apply cleanup_lookup in Hl as [Hl _].
      eauto.
    - intros [k [info [Hl [Ht Hx]]]]. exists k, info.
      split; [apply cleanup_lookup; split; [exact Hl|lia]|auto]. }
  intros k info Hl Hexp. split.
  - apply cleanup_lookup. split; [exact Hl|lia].
  - unfold GetByMessageID. rewrite Hl. unfold Before.
    replace (now <? InfoExpiresAt info) with false
      by (symmetry; apply Z.ltb_ge; lia).
    reflexivity.
Qed.

Lemma tracked_chat_iff (mt : MessageTracker) (now : Time) (chatJID : string) :
  GetByChat mt now chatJID <> None <-> tracked_chat mt now chatJID.
Proof.
  unfold tracked_chat. split.
  - destruct (GetByChat mt now chatJID) as [info|] eqn:Hg; [|congruence].
    intros _. apply GetByChat_sound in Hg as [[k Hk] [Hd Hx]]. eauto.
  - intros [k [info [Hl [Hd Hx]]]] Hnone.
    unfold GetByChat, range in Hnone.
    assert (Hin : In info (map_to_list (cache mt)).*2).
    { apply list_elem_of_In, list_elem_of_fmap. exists (k, info).
      split; [reflexivity|]. apply elem_of_map_to_list. exact Hl. }
    pose proof (find_none _ _ Hnone info Hin) as Hp. simpl in Hp.
    apply andb_false_iff in Hp as [Hp|Hp].
    + apply String.eqb_neq in Hp. congruence.
    + unfold Before in Hp. apply Z.ltb_ge in Hp. lia.
Qed.

(** X18. Hits and misses of the scanning lookups. [GetByTrxID] and
    [GetByChat] answer with an entry exactly when the map holds an
    unexpired entry for the transaction id (the chat); the entry returned
    is such an entry; and [Count] is the number of all entries of the map,
    expired or not, so right after [Track] of a new message id it is one
    more than before even when every older entry has expired. *)
Theorem X18_tracker_scans (mt : MessageTracker) (now : Time) (key : string) :
  (GetByTrxID mt now key <> None <-> tracked mt now key)
  /\ (GetByChat mt now key <> None <-> tracked_chat mt now key)
  /\ (forall info,
        GetByTrxID mt now key = Some info ->
        (exists k, cache mt !! k = Some info)
        /\ InfoTrxID info = key /\ now < InfoExpiresAt info)
  /\ (forall info,
        GetByChat mt now key = Some info ->
        (exists k, cache mt !! k = Some info)
        /\ InfoDestination info = key /\ now < InfoExpiresAt info)
  /\ (forall info t,
        cache mt !! InfoMessageID info = None ->
        Count (Track mt t info) = Count mt + 1).
Proof.
  split; [apply tracked_iff|]. split; [apply tracked_chat_iff|].
  split; [|split].
  - unfold GetByTrxID, range. intros info Hf.
    apply find_some in Hf as [Hin Hp].
    apply andb_true_iff in Hp as [H1 H2].
    apply String.eqb_eq in H1. apply Z.ltb_lt in H2.
    apply list_elem_of_In, list_elem_of_fmap in Hin as [[k i] [-> Hin]].
    apply elem_of_map_to_list in Hin. eauto.
  - intros info. apply GetByChat_sound.
  - intros info t Hnew. unfold Count, Track. simpl.
    rewrite map_size_insert_None by exact Hnew. lia.
Qed.

End TrackerMore.

(** ** The in-memory service behind the handler *)

Module LegacyMore.
Import Go Model WhatsApp Tracker Handler HandlerSpec HandlerFacts
       TrackerVocabulary LegacyService.

Section WithFormat.

Variable formatMessage : TransactionRequest -> string.

Lemma legacy_success (env : Env) (mt : MessageTracker)
    (req : TransactionRequest) (data : TransactionData) :
  snd (ProcessTransaction formatMessage env mt req) = Ok data ->
  exists jid,
    ValidateDestination (wa env) (ReqDestination req)
      = Ok (jid, DataDestinationType data)
    /\ DataTrxID data = ReqTrxID req
    /\ DataDestination data = JIDString jid
    /\ DataTimestamp data = nowData env
    /\ ProcessTransaction formatMessage env mt req
       = (Track mt (nowTrack env)
            {| InfoMessageID := DataMessageID data;
               InfoTrxID := ReqTrxID req;
               InfoDestination := JIDString jid;
               InfoDestinationType := DataDestinationType data;
               InfoSentAt := nowSentAt env;
               InfoExpiresAt := Service.zeroTime |},
          [{| SentTo := jid; SentText := formatMessage req;
              SendOutcome := Ok (DataMessageID data) |}],
          Ok data).
Proof.
  unfold ProcessTransaction.
  destruct (ValidateDestination _ _) as [[jid ty]|e]; [|discriminate].
  pose proof (ServiceFacts.SendMessage_sent (wa env) jid (formatMessage req))
    as Hsent.
  destruct (SendMessage _ _ _) as [calls [mid|e]]; [|discriminate].
  simpl in *. intros [= <-]. simpl. exists jid.
  rewrite (Hsent mid eq_refl). repeat split.
Qed.

Lemma legacy_tracked (env : Env) (mt : MessageTracker)
    (req : TransactionRequest) (data : TransactionData) (q : Time) :
  snd (ProcessTransaction formatMessage env mt req) = Ok data ->
  q < nowTrack env + ttl mt ->
  tracked (fst (fst (ProcessTransaction formatMessage env mt req)))
          q (ReqTrxID req).
Proof.
  intros Hres Hq.
  destruct (legacy_success env mt req data Hres)
    as [jid [Hv [Ht [Hd [Hts Heq]]]]].
  rewrite Heq. simpl.
  apply (Track_tracked mt (nowTrack env) q
           {| InfoMessageID := DataMessageID data;
              InfoTrxID := ReqTrxID req;
              InfoDestination := JIDString jid;
              InfoDestinationType := DataDestinationType data;
              InfoSentAt := nowSentAt env;
              InfoExpiresAt := Service.zeroTime |}).
  unfold Add. exact Hq.
Qed.

(** X19. The in-memory service on its own. [ProcessTransaction] of this
    revision never looks into the tracker: its result is the same for
    every tracker, so a transaction id that is already tracked is sent
    again. When it fails, the tracker is as before and no message has
    gone out; when it succeeds, exactly one message has gone out, with the
    formatted text, and the tracker has the entry for it under the message
    id, found by the transaction id at every time before
    [Track]'s clock reading plus the TTL. *)
Theorem X19_legacy_process (env : Env) (mt : MessageTracker)
    (req : TransactionRequest) :
  (forall mt', snd (ProcessTransaction formatMessage env mt' req)
               = snd (ProcessTransaction formatMessage env mt req))
  /\ (is_ok (snd (ProcessTransaction formatMessage env mt req)) = false ->
      fst (fst (ProcessTransaction formatMessage env mt req)) = mt
      /\ forall call,
           In call (snd (fst (ProcessTransaction formatMessage env mt req))) ->
           is_ok (SendOutcome call) = false)
  /\ (forall data,
        snd (ProcessTransaction formatMessage env mt req) = Ok data ->
        (exists to,
            snd (fst (ProcessTransaction formatMessage env mt req))
            = [{| SentTo := to; SentText := formatMessage req;
                  SendOutcome := Ok (DataMessageID data) |}])
        /\ (forall q,
              q < nowTrack env + ttl mt ->
              tracked (fst (fst (ProcessTransaction formatMessage env mt req)))
                      q (ReqTrxID req)
              /\ exists info,
                   GetByMessageID
                     (fst (fst (ProcessTransaction formatMessage env mt req)))
                     q (DataMessageID data) = Some info
                   /\ InfoTrxID info = ReqTrxID req
                   /\ InfoDestination info = DataDestination data
                   /\ InfoExpiresAt info = nowTrack env + ttl mt)).
Proof.
  split; [|split].
  - intros mt'. unfold ProcessTransaction.
    destruct (ValidateDestination _ _) as [[jid ty]|e]; [|reflexivity].
    destruct (SendMessage _ _ _) as [calls [mid|e]]; reflexivity.
  - unfold ProcessTransaction.
    destruct (ValidateDestination _ _) as [[jid ty]|e]; simpl.
    + pose proof (ServiceFacts.SendMessage_failed (wa env) jid
                    (formatMessage req)) as Hf.
      destruct (SendMessage _ _ _) as [calls [mid|e]]; simpl in *;
        [discriminate|].
      intros _. split; [reflexivity|]. apply (Hf e eq_refl).
    + intros _. split; [reflexivity|]. intros call [].
  - intros data Hres.
    destruct (legacy_success env mt req data Hres)
      as [jid [Hv [Ht [Hd [Hts Heq]]]]].
    rewrite Heq. simpl. split; [eauto|].
    intros q Hq. split.
    + pose proof (legacy_tracked env mt req data q Hres Hq) as Ht'.
      rewrite Heq in Ht'. exact Ht'.
    + unfold GetByMessageID, Track. simpl. rewrite lookup_insert_eq. simpl.
      unfold Before, Add.
      replace (q <? nowTrack env + ttl mt) with true
        by (symmetry; apply Z.ltb_lt; lia).
      eexists. split; [reflexivity|]. simpl. auto.
Qed.

Variable formatRFC3339 : Time -> string.

(** X20. At most once through the handler. When the handler has answered
    a request with 200, a further request with the same transaction id,
    whose fields are present and within the bound, is answered 409 as long
    as the handler's clock reads less than the clock reading of [Track]
    for the first request plus the TTL; the service is not invoked for it
    and the tracker stays as the first request left it. *)
Theorem X20_handler_refuses_repeat (env1 env2 : Env) (mt : MessageTracker)
    (now1 now2 : Time) (q1 q2 : Query) :
  StatusCode (response (ForwardTransaction formatRFC3339
                          (serve formatMessage env1) mt now1 q1)) = StatusOK ->
  trxid q2 = trxid q1 ->
  ~ missing_field q2 ->
  ~ oversized q2 ->
  now2 < nowTrack env1 + ttl mt ->
  StatusCode (response
    (ForwardTransaction formatRFC3339 (serve formatMessage env2)
       (tracker (ForwardTransaction formatRFC3339 (serve formatMessage env1)
                   mt now1 q1)) now2 q2)) = StatusConflict
  /\ processed
       (ForwardTransaction formatRFC3339 (serve formatMessage env2)
          (tracker (ForwardTransaction formatRFC3339 (serve formatMessage env1)
                      mt now1 q1)) now2 q2) = []
  /\ tracker
       (ForwardTransaction formatRFC3339 (serve formatMessage env2)
          (tracker (ForwardTransaction formatRFC3339 (serve formatMessage env1)
                      mt now1 q1)) now2 q2)
     = tracker (ForwardTransaction formatRFC3339 (serve formatMessage env1)
                  mt now1 q1).
Proof.
  intros H200 Htrx Hm Ho Hnow.
  assert (Htracked :
            tracked (tracker (ForwardTransaction formatRFC3339
                                (serve formatMessage env1) mt now1 q1))
                    now2 (trxid q2)).
  { destruct (missing_field_dec q1) as [Hm1|Hm1].
    { rewrite rejected_missing in H200 by exact Hm1. discriminate. }
    destruct (oversized_dec q1) as [Ho1|Ho1].
    { rewrite rejected_oversized in H200 by assumption. discriminate. }
    rewrite passed_validation in H200 |- * by assumption.
    destruct (GetByTrxID mt now1 (trxid q1)); [discriminate|].
    unfold serve in *. simpl in *.
    destruct (snd (ProcessTransaction formatMessage env1 mt (request_of q1)))
      as [data|e] eqn:Hres; [|discriminate].
    simpl. rewrite Htrx.
    apply (legacy_tracked env1 mt (request_of q1) data now2 Hres Hnow). }
  rewrite passed_validation by assumption.
  apply tracked_iff in Htracked.
  destruct (GetByTrxID _ now2 (trxid q2)); [|congruence].
  repeat split.
Qed.

End WithFormat.

Lemma X20_handler_refuses_repeat_witness :
  StatusCode (response (ForwardTransaction plainTime
                          (serve LegacyScenario.plainText
                             (LegacyScenario.calm 100))
                          (NewMessageTracker 1000) 100 wellFormed)) = StatusOK
  /\ trxid wellFormed = trxid wellFormed
  /\ ~ missing_field wellFormed
  /\ ~ oversized wellFormed
  /\ 200 < nowTrack (LegacyScenario.calm 100) + ttl (NewMessageTracker 1000)
  /\ StatusCode (response
       (ForwardTransaction plainTime
          (serve LegacyScenario.plainText (LegacyScenario.calm 200))
          (tracker (ForwardTransaction plainTime
                      (serve LegacyScenario.plainText (LegacyScenario.calm 100))
                      (NewMessageTracker 1000) 100 wellFormed))
          200 wellFormed)) = StatusConflict.
Proof.
  assert (H200 : StatusCode (response (ForwardTransaction plainTime
                          (serve LegacyScenario.plainText
                             (LegacyScenario.calm 100))
                          (NewMessageTracker 1000) 100 wellFormed)) = StatusOK)
    by (vm_compute; reflexivity).
  assert (Hm : ~ missing_field wellFormed)
    by (intros [H|[H|[H|H]]]; discriminate).
  assert (Ho : ~ oversized wellFormed)
    by (intros [H|H]; vm_compute in H; discriminate).
  assert (Hq : 200 < nowTrack (LegacyScenario.calm 100)
                     + ttl (NewMessageTracker 1000)) by (simpl; lia).
  split; [exact H200|]. split; [reflexivity|]. split; [exact Hm|].
  split; [exact Ho|]. split; [exact Hq|].
  exact (proj1 (X20_handler_refuses_repeat LegacyScenario.plainText plainTime
                  (LegacyScenario.calm 100) (LegacyScenario.calm 200)
                  (NewMessageTracker 1000) 100 200 wellFormed wellFormed
                  H200 eq_refl Hm Ho Hq)).
Defined.

End LegacyMore.

(** ** More on the HTTP handler *)

Module HandlerMore.
Import Go Model Handler HandlerSpec HandlerFacts.

Lemma string_length_app (a b : string) :
  String.length (a +:+ b) = (String.length a + String.length b)%nat.
Proof. induction a as [|c a IH]; simpl; [reflexivity|]. rewrite IH. lia. Qed.

Lemma string_app_nil_r (a : string) : a +:+ "" = a.
Proof.
  induction a as [|c a IH]; [reflexivity|].
  change (String c a +:+ "") with (String c (a +:+ "")).
  rewrite IH. reflexivity.
Qed.

Lemma substring_skip (pre s : string) (i n : nat) :
  String.substring (String.length pre + i) n (pre +:+ s)
  = String.substring i n s.
Proof. induction pre as [|c pre IH]; simpl; [reflexivity|exact IH]. Qed.

Lemma substring_prefix (t post : string) :
  String.substring 0 (String.length t) (t +:+ post) = t.
Proof.
  induction t as [|c t IH]; simpl.
  - destruct post; reflexivity.
  - rewrite IH. reflexivity.
Qed.

Lemma substring_zero_split (n : nat) (s t : string) :
  String.substring 0 n s = t -> String.length t = n ->
  exists post, s = t +:+ post.
Proof.
  revert s t. induction n as [|n IH]; intros s t Hs Hl.
  - destruct t; [|discriminate]. exists s. reflexivity.
  - destruct s as [|c s]; simpl in Hs.
    + subst t. discriminate.
    + destruct t as [|c' t]; [discriminate|].
      injection Hs as <- Hs. injection Hl as Hl.
      destruct (IH s t Hs Hl) as [post ->]. exists post. reflexivity.
Qed.

Lemma substring_split (i : nat) (s t : string) :
  t <> "" -> String.substring i (String.length t) s = t ->
  exists pre post, s = pre +:+ t +:+ post /\ String.length pre = i.
Proof.
  intros Ht. revert s. induction i as [|i IH]; intros s Hs.
  - destruct (substring_zero_split _ s t Hs eq_refl) as [post ->].
    exists "", post. split; reflexivity.
  - destruct s as [|c s].
    + destruct t; [congruence|]. simpl in Hs. discriminate.
    + simpl in Hs. destruct (IH s Hs) as [pre [post [-> Hl]]].
      exists (String c pre), post. simpl. split; [reflexivity|lia].
Qed.

Lemma findSubstring_iff (s substr : string) :
  substr <> "" ->
  (findSubstring s substr = true
   <-> exists pre post, s = pre +:+ substr +:+ post).
Proof.
  intros Hne. unfold findSubstring, len. rewrite existsb_exists. split.
  - intros [i [_ Hi]]. apply String.eqb_eq in Hi.
    destruct (substring_split i s substr Hne Hi) as [pre [post [H _]]].
    eauto.
  - intros [pre [post ->]]. exists (String.length pre). split.
    + apply in_seq. rewrite !string_length_app. lia.
    + apply String.eqb_eq.
      replace (String.length pre) with (String.length pre + 0)%nat by lia.
      rewrite substring_skip. apply substring_prefix.
Qed.

Lemma contains_substring (s substr : string) :
  contains s substr = true <-> exists pre post, s = pre +:+ substr +:+ post.
Proof.
  unfold contains, len. split.
  - intros H. apply andb_true_iff in H as [_ H].
    apply orb_true_iff in H as [H|H]; [apply orb_true_iff in H as [H|H]|].
    + apply String.eqb_eq in H. subst. exists "", "". simpl.
      rewrite string_app_nil_r. reflexivity.
    + apply Z.eqb_eq in H. destruct substr; [|simpl in H; lia].
      exists "", s. reflexivity.
    + rewrite !andb_true_iff in H. destruct H as [[[[_ H0] _] _] H].
      apply findSubstring_iff; [|exact H].
      intros ->. apply Z.ltb_lt in H0. simpl in H0. lia.
  - intros [pre [post ->]].
    apply andb_true_iff. split.
    + apply Z.leb_le. rewrite !string_length_app. lia.
    + destruct substr as [|c t].
      * rewrite orb_true_iff. left. rewrite orb_true_iff. right. reflexivity.
      * rewrite orb_true_iff. right.
        assert (Hlen : 0 < Z.of_nat (String.length (pre +:+ String c t +:+ post))).
        { rewrite !string_length_app. simpl. lia. }
        assert (Hnz : String.eqb (pre +:+ String c t +:+ post) "" = false).
        { apply String.eqb_neq. intros Heq. rewrite Heq in Hlen.
          simpl in Hlen. lia. }
        rewrite Hnz. simpl negb.
        replace (0 <? Z.of_nat (String.length (pre +:+ String c t +:+ post)))
          with true by (symmetry; apply Z.ltb_lt; exact Hlen).
        replace (0 <? Z.of_nat (String.length (String c t))) with true
          by (symmetry; apply Z.ltb_lt; simpl; lia).
        simpl. apply findSubstring_iff; [discriminate|]. eauto.
Qed.

Lemma Contains_nil (sub : string) :
  Go.Contains "" sub = if String.prefix sub "" then true else false.
Proof. reflexivity. Qed.

Lemma Contains_cons (c : ascii) (s sub : string) :
  Go.Contains (String c s) sub
  = if String.prefix sub (String c s) then true else Go.Contains s sub.
Proof. reflexivity. Qed.

(** X21. The handler's own [contains] is the substring test. For all
    strings, [contains s substr] holds exactly when [substr] occurs in
    [s], that is when [s] is some text, then [substr], then some text; in
    particular every string contains the empty string and itself, and
    [contains] answers as [strings.Contains] does. *)
Theorem X21_contains_is_substring (s substr : string) :
  (contains s substr = true
   <-> exists pre post, s = pre +:+ substr +:+ post)
  /\ contains s "" = true
  /\ contains s s = true
  /\ contains s substr = Go.Contains s substr.
Proof.
  split; [apply contains_substring|].
  split; [apply contains_substring; exists "", s; reflexivity|].
  split.
  { apply contains_substring. exists "", "". simpl.
    rewrite string_app_nil_r. reflexivity. }
  destruct (Go.Contains s substr) eqn:Hc.
  - apply contains_substring.
    induction s as [|c s IH].
    + rewrite Contains_nil in Hc.
      destruct (String.prefix substr "") eqn:Hp; [|discriminate].
      apply String.prefix_correct in Hp.
      destruct substr; [|simpl in Hp; discriminate].
      exists "", "". reflexivity.
    + rewrite Contains_cons in Hc.
      destruct (String.prefix substr (String c s)) eqn:Hp.
      * apply String.prefix_correct in Hp.
        destruct (substring_zero_split _ _ _ Hp eq_refl) as [post Hpost].
        exists "", post. exact Hpost.
      * destruct (IH Hc) as [pre [post ->]].
        exists (String c pre), post. reflexivity.
  - destruct (contains s substr) eqn:Hk; [|reflexivity].
    apply contains_substring in Hk as [pre [post ->]].
    exfalso. revert Hc. clear.
    assert (Hp : String.prefix substr (substr +:+ post) = true).
    { apply String.prefix_correct. apply substring_prefix. }
    induction pre as [|c pre IH].
    + change ("" +:+ substr +:+ post) with (substr +:+ post).
      destruct (substr +:+ post) as [|c u];
        [rewrite Contains_nil|rewrite Contains_cons]; rewrite Hp; discriminate.
    + change (String c pre +:+ substr +:+ post)
        with (String c (pre +:+ substr +:+ post)).
      rewrite Contains_cons.
      destruct (String.prefix substr (String c _));
        [intros H; discriminate H|exact IH].
Qed.

End HandlerMore.

(** ** Error codes of the forward route *)

Module ErrorCodeFacts.
Import Go Model WhatsApp Tracker Handler HandlerSpec HandlerFacts
       LegacyService.

Section WithFormats.

Variable formatRFC3339 : Time -> string.
Variable formatMessage : TransactionRequest -> string.

Lemma contains_head (a b : string) : contains (a +:+ b) a = true.
Proof.
  apply HandlerMore.contains_substring. exists "", b. reflexivity.
Qed.

Lemma code_of_invalid_destination (e : error) :
  mapErrorCode formatRFC3339 (Wrap "invalid destination" e)
  = "ERR_INVALID_DESTINATION".
Proof.
  unfold mapErrorCode. cbn [ErrorText].
  rewrite contains_head. reflexivity.
Qed.

Lemma code_of_send_failure (e : error) :
  mapErrorCode formatRFC3339 (Wrap "failed to send message" e)
  <> "ERR_INTERNAL_SERVER".
Proof.
  unfold mapErrorCode. cbn [ErrorText].
  assert (H : contains ("failed to send message" +:+ ": "
                        +:+ ErrorText formatRFC3339 e) "failed to send" = true).
  { apply HandlerMore.contains_substring.
    exists "", (" message" +:+ ": " +:+ ErrorText formatRFC3339 e).
    reflexivity. }
  rewrite H.
  repeat match goal with
         | |- context [if ?b then _ else _] => destruct b
         end; discriminate.
Qed.

(** X22. Error codes of the forward route over the in-memory service.
    For a request that passes the handler's own checks: when the
    destination does not validate, whatever the reason (so also for a
    group that is not found and for a number that is not registered),
    the answer is 500 with code ERR_INVALID_DESTINATION and the text
    of the validation error behind the prefix, and the tracker is
    untouched; when the destination validates but the client is not
    connected, the answer is 500 with code ERR_WHATSAPP_NOT_CONNECTED;
    and no answer of this route carries the code ERR_INTERNAL_SERVER. *)
Theorem X22_error_codes (env : Env) (mt : MessageTracker) (now : Time)
    (q : Query) :
  ~ missing_field q ->
  ~ oversized q ->
  GetByTrxID mt now (trxid q) = None ->
  (forall e,
      ValidateDestination (wa env) (destination q) = Err e ->
      response (ForwardTransaction formatRFC3339 (serve formatMessage env)
                  mt now q)
      = sendErrorResponse "ERR_INVALID_DESTINATION"
          ("invalid destination" +:+ ": " +:+ ErrorText formatRFC3339 e)
          StatusInternalServerError
      /\ tracker (ForwardTransaction formatRFC3339 (serve formatMessage env)
                    mt now q) = mt)
  /\ (forall target,
        ValidateDestination (wa env) (destination q) = Ok target ->
        IsConnected (wa env) = false ->
        response (ForwardTransaction formatRFC3339 (serve formatMessage env)
                    mt now q)
        = sendErrorResponse "ERR_WHATSAPP_NOT_CONNECTED"
            "failed to send message: WhatsApp client not connected"
            StatusInternalServerError
        /\ tracker (ForwardTransaction formatRFC3339 (serve formatMessage env)
                      mt now q) = mt)
  /\ ErrorCode (response (ForwardTransaction formatRFC3339
                            (serve formatMessage env) mt now q))
     <> Some "ERR_INTERNAL_SERVER".
Proof.
  intros Hm Ho Hnone.
  rewrite passed_validation by assumption. rewrite Hnone.
  unfold serve, ProcessTransaction. cbn [fst snd request_of ReqDestination].
  split; [|split].
  - intros e He. rewrite He. cbn [fst snd].
    rewrite code_of_invalid_destination. split; reflexivity.
  - intros [jid ty] Hv Hc. rewrite Hv.
    unfold SendMessage. rewrite Hc. cbn [negb fst snd].
    split; reflexivity.
  - destruct (ValidateDestination _ _) as [[jid ty]|e]; cbn [fst snd].
    + destruct (SendMessage _ _ _) as [calls [mid|e]]; cbn [fst snd].
      * discriminate.
      * cbn [response sendErrorResponse ErrorCode].
        intros [= H]. exact (code_of_send_failure e H).
    + rewrite code_of_invalid_destination. discriminate.
Qed.

End WithFormats.

Lemma X22_error_codes_witness :
  ~ missing_field HandlerScenario.noDigits
  /\ ~ oversized HandlerScenario.noDigits
  /\ GetByTrxID (NewMessageTracker 1000) 100
       (trxid HandlerScenario.noDigits) = None
  /\ response (ForwardTransaction plainTime
                 (serve LegacyScenario.plainText (LegacyScenario.calm 100))
                 (NewMessageTracker 1000) 100 HandlerScenario.noDigits)
     = sendErrorResponse "ERR_INVALID_DESTINATION"
         "invalid destination: invalid phone number format"
         StatusInternalServerError.
Proof.
  assert (Hm : ~ missing_field HandlerScenario.noDigits)
    by (intros [H|[H|[H|H]]]; discriminate).
  assert (Ho : ~ oversized HandlerScenario.noDigits)
    by (intros [H|H]; vm_compute in H; discriminate).
  assert (Hn : GetByTrxID (NewMessageTracker 1000) 100
                 (trxid HandlerScenario.noDigits) = None)
    by (vm_compute; reflexivity).
  split; [exact Hm|]. split; [exact Ho|]. split; [exact Hn|].
  exact (proj1 (proj1 (X22_error_codes plainTime LegacyScenario.plainText
                         (LegacyScenario.calm 100) (NewMessageTracker 1000)
                         100 HandlerScenario.noDigits Hm Ho Hn)
                  (New "invalid phone number format") eq_refl)).
Defined.

End ErrorCodeFacts.

(** ** The API key check *)

Module MiddlewareFacts.
Import Go Model Handler Middleware.

(** X23. The API key check in front of a route. The wrapped handler is
    called exactly when no key is configured or the request's X-API-Key
    header equals the configured key; it is then called on the request as
    it came and its result is the result. In every other case (header
    absent, or different from the key) the handler is not called and
    the answer is 401 with code ERR_UNAUTHORIZED and no data. *)
Theorem X23_api_key_gate {R A : Type} (m : AuthMiddleware)
    (header : R -> string) (next : R -> A) (r : R) :
  (invoked (Authenticate m header next r) = true
   <-> apiKey m = "" \/ header r = apiKey m)
  /\ (invoked (Authenticate m header next r) = true ->
      exists logged, Authenticate m header next r
                     = Proceeded (next r) logged)
  /\ (invoked (Authenticate m header next r) = false ->
      exists message logged,
        Authenticate m header next r
        = Refused {| StatusCode := 401; Status := "error";
                     RespMessage := message;
                     ErrorCode := Some "ERR_UNAUTHORIZED";
                     Data := None |} logged).
Proof.
  unfold Authenticate.
  destruct (String.eqb (apiKey m) "") eqn:Ek.
  { apply String.eqb_eq in Ek. cbn [invoked].
    split; [tauto|]. split; [eauto|discriminate]. }
  apply String.eqb_neq in Ek.
  destruct (String.eqb (header r) "") eqn:Eh.
  { apply String.eqb_eq in Eh. cbn [invoked].
    split; [|split]; [|discriminate|eauto].
    split; [discriminate|]. intros [H|H]; congruence. }
  destruct (String.eqb (header r) (apiKey m)) eqn:Ea; cbn [negb invoked].
  - apply String.eqb_eq in Ea.
    split; [tauto|]. split; [eauto|discriminate].
  - apply String.eqb_neq in Ea.
    split; [|split]; [|discriminate|eauto].
    split; [discriminate|]. intros [H|H]; congruence.
Qed.

End MiddlewareFacts.

(** ** Configuration values *)

Module ConfigFacts.
Import Go Config ConfigVocabulary.

(** *** Strings *)

Lemma append_cons (c : ascii) (a b : string) :
  String c a +:+ b = String c (a +:+ b).
Proof. reflexivity. Qed.

Lemma append_nil_l (b : string) : "" +:+ b = b.
Proof. reflexivity. Qed.

Lemma append_nil_r (a : string) : a +:+ "" = a.
Proof.
  induction a as [|c a IH]; [reflexivity|].
  rewrite append_cons, IH. reflexivity.
Qed.

Lemma append_assoc (a b c : string) : (a +:+ b) +:+ c = a +:+ b +:+ c.
Proof.
  induction a as [|x a IH]; [reflexivity|].
  rewrite !append_cons, IH. reflexivity.
Qed.

Lemma length_append (a b : string) :
  String.length (a +:+ b) = (String.length a + String.length b)%nat.
Proof.
  induction a as [|x a IH]; [reflexivity|].
  rewrite append_cons. simpl. rewrite IH. reflexivity.
Qed.

Lemma by_length (P : string -> Prop) :
  (forall s, (forall t, (String.length t < String.length s)%nat -> P t) -> P s) ->
  forall s, P s.
Proof.
  intros H s.
  assert (G : forall n t, (String.length t < n)%nat -> P t).
  { induction n as [|n IH]; intros t Ht; [lia|].
    apply H. intros u Hu. apply IH. lia. }
  apply (G (S (String.length s))). lia.
Qed.

Lemma reverse_onto_append (s acc : string) :
  reverse_onto s acc = reverse s +:+ acc.
Proof.
  unfold reverse. revert acc.
  induction s as [|c s IH]; intros acc; [reflexivity|].
  simpl. rewrite IH, (IH (String c "")), append_assoc. reflexivity.
Qed.

Lemma reverse_cons (c : ascii) (s : string) :
  reverse (String c s) = reverse s +:+ String c "".
Proof. unfold reverse at 1. simpl. apply reverse_onto_append. Qed.

Lemma reverse_append (a b : string) :
  reverse (a +:+ b) = reverse b +:+ reverse a.
Proof.
  induction a as [|c a IH].
  - rewrite append_nil_l. change (reverse "") with "".
    rewrite append_nil_r. reflexivity.
  - rewrite append_cons, !reverse_cons, IH, append_assoc. reflexivity.
Qed.

Lemma reverse_involutive (s : string) : reverse (reverse s) = s.
Proof.
  induction s as [|c s IH]; [reflexivity|].
  rewrite reverse_cons, reverse_append, IH. reflexivity.
Qed.

Lemma mentions_append (c : ascii) (a b : string) :
  mentions c (a +:+ b) = mentions c a || mentions c b.
Proof.
  induction a as [|x a IH]; [reflexivity|].
  rewrite append_cons. simpl. rewrite IH, orb_assoc. reflexivity.
Qed.

(** *** [TrimSpace] *)

Lemma skipSpace_step (back : bool) (s : string) :
  skipSpace back s
  = match leading_space back s with
    | Some rest => skipSpace back rest
    | None => s
    end.
Proof.
  destruct s as [|a [|b [|c s]]]; simpl; try reflexivity.
  - destruct (is_space1 a); reflexivity.
  - destruct (is_space1 a); [reflexivity|].
    destruct (if back then is_space2 b a else is_space2 a b); reflexivity.
  - destruct (is_space1 a); [reflexivity|].
    destruct (if back then is_space2 b a else is_space2 a b); [reflexivity|].
    destruct (if back then is_space3 c b a else is_space3 a b c); reflexivity.
Qed.

Lemma leading_space_split (back : bool) (s rest : string) :
  leading_space back s = Some rest ->
  exists w, s = w +:+ rest /\ w <> "".
Proof.
  destruct s as [|a [|b [|c s]]]; simpl; try discriminate.
  - destruct (is_space1 a); [|discriminate].
    intros [= <-]. exists (String a ""). split; [reflexivity|discriminate].
  - destruct (is_space1 a).
    { intros [= <-]. exists (String a ""). split; [reflexivity|discriminate]. }
    destruct (if back then is_space2 b a else is_space2 a b); [|discriminate].
    intros [= <-]. exists (String a (String b "")).
    split; [reflexivity|discriminate].
  - destruct (is_space1 a).
    { intros [= <-]. exists (String a ""). split; [reflexivity|discriminate]. }
    destruct (if back then is_space2 b a else is_space2 a b).
    { intros [= <-]. exists (String a (String b "")).
      split; [reflexivity|discriminate]. }
    destruct (if back then is_space3 c b a else is_space3 a b c);
      [|discriminate].
    intros [= <-]. exists (String a (String b (String c ""))).
    split; [reflexivity|discriminate].
Qed.

Lemma leading_space_shorter (back : bool) (s rest : string) :
  leading_space back s = Some rest ->
  (String.length rest < String.length s)%nat.
Proof.
  intros H. destruct (leading_space_split back s rest H) as [w [-> Hw]].
  rewrite length_append. destruct w; [congruence|simpl; lia].
Qed.

(** A white-space rune at the front of a string is at the front of every
    extension of it. *)
Lemma leading_space_extend (back : bool) (p q rest : string) :
  leading_space back p = Some rest ->
  leading_space back (p +:+ q) = Some (rest +:+ q).
Proof.
  destruct p as [|a [|b [|c p]]]; rewrite ?append_cons, ?append_nil_l;
    cbn [leading_space]; try discriminate.
  - destruct (is_space1 a); [|discriminate].
    intros [= <-]. reflexivity.
  - destruct (is_space1 a); [intros [= <-]; reflexivity|].
    destruct q as [|x q].
    + destruct (if back then is_space2 b a else is_space2 a b);
        [|discriminate].
      intros [= <-]. reflexivity.
    + destruct (if back then is_space2 b a else is_space2 a b);
        [|discriminate].
      intros [= <-]. reflexivity.
  - destruct (is_space1 a); [intros [= <-]; reflexivity|].
    destruct (if back then is_space2 b a else is_space2 a b);
      [intros [= <-]; reflexivity|].
    destruct (if back then is_space3 c b a else is_space3 a b c);
      [|discriminate].
    intros [= <-]. reflexivity.
Qed.

Lemma skipSpace_suffix (back : bool) (s : string) :
  exists pre, s = pre +:+ skipSpace back s.
Proof.
  induction s as [s IH] using by_length.
  rewrite skipSpace_step.
  destruct (leading_space back s) as [rest|] eqn:E.
  - destruct (leading_space_split back s rest E) as [w [Hs _]].
    destruct (IH rest (leading_space_shorter back s rest E)) as [pre Hpre].
    exists (w +:+ pre). rewrite append_assoc, <- Hpre. exact Hs.
  - exists "". reflexivity.
Qed.

Lemma skipSpace_done (back : bool) (s : string) :
  leading_space back (skipSpace back s) = None.
Proof.
  induction s as [s IH] using by_length.
  rewrite skipSpace_step.
  destruct (leading_space back s) as [rest|] eqn:E; [|exact E].
  apply IH. exact (leading_space_shorter back s rest E).
Qed.

Lemma skipSpace_fixed (back : bool) (s : string) :
  leading_space back s = None -> skipSpace back s = s.
Proof. intros H. rewrite skipSpace_step, H. reflexivity. Qed.

(** What [TrimSpace] returns sits inside its argument. *)
Lemma TrimSpace_inside (s : string) :
  exists pre post, s = pre +:+ TrimSpace s +:+ post.
Proof.
  unfold TrimSpace.
  destruct (skipSpace_suffix false s) as [pre Hpre].
  destruct (skipSpace_suffix true (reverse (skipSpace false s)))
    as [post Hpost].
  exists pre, (reverse post).
  rewrite <- reverse_append, <- Hpost, reverse_involutive. exact Hpre.
Qed.

(** The result has no white-space rune at its front and none at its
    back. *)
Lemma TrimSpace_ends (s : string) :
  leading_space false (TrimSpace s) = None
  /\ leading_space true (reverse (TrimSpace s)) = None.
Proof.
  unfold TrimSpace.
  destruct (skipSpace_suffix true (reverse (skipSpace false s)))
    as [pre Hpre].
  set (Y := skipSpace true (reverse (skipSpace false s))) in *.
  split.
  - destruct (leading_space false (reverse Y)) as [rest|] eqn:E;
      [|reflexivity].
    pose proof (leading_space_extend false (reverse Y) (reverse pre) rest E)
      as H.
    rewrite <- reverse_append, <- Hpre, reverse_involutive in H.
    rewrite skipSpace_done in H. discriminate.
  - rewrite reverse_involutive. apply skipSpace_done.
Qed.

(** So trimming again returns it as it is. *)
Lemma TrimSpace_idempotent (s : string) :
  TrimSpace (TrimSpace s) = TrimSpace s.
Proof.
  destruct (TrimSpace_ends s) as [Hfront Hback].
  unfold TrimSpace at 1.
  rewrite (skipSpace_fixed false _ Hfront).
  rewrite (skipSpace_fixed true _ Hback).
  apply reverse_involutive.
Qed.

Lemma TrimSpace_empty : TrimSpace "" = "".
Proof. reflexivity. Qed.

(** *** [Split] *)

Lemma Split_nonempty (s : string) (sep : ascii) : Split s sep <> [].
Proof.
  destruct s as [|c s]; simpl; [discriminate|].
  destruct (Ascii.eqb c sep); [discriminate|].
  destruct (Split s sep); discriminate.
Qed.

Lemma Split_parts (s : string) (sep : ascii) (part : string) :
  In part (Split s sep) -> mentions sep part = false.
Proof.
  revert part. induction s as [|c s IH]; simpl; intros part.
  - intros [<-|[]]. reflexivity.
  - destruct (Ascii.eqb c sep) eqn:E.
    + intros [<-|H]; [reflexivity|]. apply IH. exact H.
    + destruct (Split s sep) as [|p ps] eqn:Es.
      * intros [<-|[]]. simpl. rewrite E. reflexivity.
      * intros [<-|H].
        -- simpl. rewrite E. apply IH. left. reflexivity.
        -- apply IH. right. exact H.
Qed.

Lemma Split_head (s : string) (sep : ascii) (p : string)
    (ps : list string) :
  Split s sep = p :: ps -> exists post, s = p +:+ post.
Proof.
  revert p ps. induction s as [|c s IH]; simpl; intros p ps.
  - intros [= <- <-]. exists "". reflexivity.
  - destruct (Ascii.eqb c sep).
    + intros [= <- <-]. exists (String c s). reflexivity.
    + destruct (Split s sep) as [|q qs] eqn:Es.
      * exfalso. exact (Split_nonempty s sep Es).
      * intros [= <- <-]. destruct (IH q qs eq_refl) as [post ->].
        exists post. reflexivity.
Qed.

(** Every part lies in the string that was split. *)
Lemma Split_inside (s : string) (sep : ascii) (part : string) :
  In part (Split s sep) -> exists pre post, s = pre +:+ part +:+ post.
Proof.
  revert part. induction s as [|c s IH]; simpl; intros part.
  - intros [<-|[]]. exists "", "". reflexivity.
  - destruct (Ascii.eqb c sep) eqn:E.
    + intros [<-|H].
      * exists "", (String c s). reflexivity.
      * destruct (IH part H) as [pre [post ->]].
        exists (String c pre), post. reflexivity.
    + destruct (Split s sep) as [|p ps] eqn:Es.
      * exfalso. exact (Split_nonempty s sep Es).
      * intros [<-|H].
        -- destruct (Split_head s sep p ps Es) as [post ->].
           exists "", post. reflexivity.
        -- destruct (IH part (or_intror H)) as [pre [post ->]].
           exists (String c pre), post. reflexivity.
Qed.

(** Splitting what [Join] wrote gives the entries back, when no entry has
    the separator in it. *)
Lemma Split_plain (e : string) :
  mentions ","%char e = false -> Split e ","%char = [e].
Proof.
  induction e as [|c e IH]; simpl; [reflexivity|].
  intros H. apply orb_false_iff in H as [Hc He].
  rewrite Hc, (IH He). reflexivity.
Qed.

Lemma Split_separated (e rest : string) :
  mentions ","%char e = false ->
  Split (e +:+ "," +:+ rest) ","%char = e :: Split rest ","%char.
Proof.
  induction e as [|c e IH]; intros H.
  - reflexivity.
  - simpl in H. apply orb_false_iff in H as [Hc He].
    rewrite append_cons. simpl. rewrite Hc, (IH He). reflexivity.
Qed.

Lemma Split_Join (e : string) (entries : list string) :
  Forall (fun x => mentions ","%char x = false) (e :: entries) ->
  Split (Join (e :: entries)) ","%char = e :: entries.
Proof.
  revert e. induction entries as [|e' entries IH]; intros e H.
  - apply Split_plain. inversion H; assumption.
  - change (Join (e :: e' :: entries))
      with (e +:+ "," +:+ Join (e' :: entries)).
    inversion H as [|? ? He Hrest]; subst.
    rewrite (Split_separated _ _ He), (IH e' Hrest). reflexivity.
Qed.

(** *** [parseStringList] *)

Lemma collect_In (parts : list string) (e : string) :
  In e (collect parts)
  <-> exists part, In part parts /\ e = TrimSpace part /\ e <> "".
Proof.
  induction parts as [|p parts IH]; simpl.
  - split; [intros []|intros [part [[] _]]].
  - destruct (String.eqb (TrimSpace p) "") eqn:E; simpl.
    + apply String.eqb_eq in E. rewrite IH. split.
      * intros [part [Hin H]]. exists part. tauto.
      * intros [part [[<-|Hin] [He Hne]]]; [congruence|].
        exists part. tauto.
    + apply String.eqb_neq in E. rewrite IH. split.
      * intros [<-|[part [Hin H]]].
        -- exists p. tauto.
        -- exists part. tauto.
      * intros [part [[<-|Hin] [He Hne]]]; [left; congruence|].
        right. exists part. tauto.
Qed.

Lemma collect_clean (entries : list string) :
  Forall clean entries -> collect entries = entries.
Proof.
  induction 1 as [|e entries [Hne [_ Ht]] _ IH]; simpl; [reflexivity|].
  rewrite Ht, IH.
  replace (String.eqb e "") with false
    by (symmetry; apply String.eqb_neq; exact Hne).
  reflexivity.
Qed.

Lemma parsed_clean (value e : string) :
  In e (parseStringList value) ->
  clean e /\ exists pre post, value = pre +:+ e +:+ post.
Proof.
  unfold parseStringList.
  destruct (String.eqb value ""); [intros []|].
  intros H. apply collect_In in H as [part [Hin [-> Hne]]].
  destruct (TrimSpace_inside part) as [pre [post Hpart]].
  split; [split; [exact Hne|split]|].
  - pose proof (Split_parts _ _ _ Hin) as Hc.
    rewrite Hpart, !mentions_append in Hc.
    apply orb_false_iff in Hc as [_ Hc].
    apply orb_false_iff in Hc as [Hc _]. exact Hc.
  - apply TrimSpace_idempotent.
  - destruct (Split_inside _ _ _ Hin) as [pre' [post' ->]].
    exists (pre' +:+ pre), (post +:+ post').
    rewrite Hpart at 1. rewrite !append_assoc. reflexivity.
Qed.

Lemma parsed_back (entries : list string) :
  Forall clean entries -> parseStringList (Join entries) = entries.
Proof.
  intros H. destruct entries as [|e entries]; [reflexivity|].
  unfold parseStringList.
  assert (Hne : Join (e :: entries) <> "").
  { inversion H as [|? ? [He _] _]; subst.
    destruct e; [congruence|]. destruct entries; discriminate. }
  replace (String.eqb (Join (e :: entries)) "") with false
    by (symmetry; apply String.eqb_neq; exact Hne).
  rewrite Split_Join.
  - apply collect_clean. exact H.
  - eapply Forall_impl; [exact H|]. intros x [_ [Hx _]]. exact Hx.
Qed.

(** X24. The comma-separated list of the configuration. Every entry that
    [parseStringList] yields is not empty, has no comma in it, has no
    white-space rune at its front or at its back (trimming it again
    changes nothing) and occurs in the value as written. Writing entries of this kind with
    commas between them and parsing the text gives the entries back, in
    their order; so parsing is a normal form: the parsed list, written
    out and parsed again, is the same list. A value that has only white
    space between its commas yields no entry at all. *)
Theorem X24_string_list (value : string) :
  (forall e, In e (parseStringList value) ->
     clean e /\ exists pre post, value = pre +:+ e +:+ post)
  /\ (forall e, In e (parseStringList value) ->
        leading_space false e = None
        /\ leading_space true (reverse e) = None)
  /\ (forall entries, Forall clean entries ->
        parseStringList (Join entries) = entries)
  /\ parseStringList (Join (parseStringList value)) = parseStringList value
  /\ (parseStringList value = []
      <-> forall part, In part (Split value ","%char) -> TrimSpace part = "").
Proof.
  split; [exact (parsed_clean value)|].
  split.
  { intros e He. destruct (parsed_clean value e He) as [[_ [_ <-]] _].
    apply TrimSpace_ends. }
  split; [exact parsed_back|].
  split.
  - apply parsed_back. apply Forall_forall. intros e He.
    apply list_elem_of_In in He.
    exact (proj1 (parsed_clean value e He)).
  - unfold parseStringList.
    destruct (String.eqb value "") eqn:E.
    + apply String.eqb_eq in E. subst. split; [|reflexivity].
      intros _ part [<-|[]]. reflexivity.
    + split.
      * intros Hnil part Hin.
        destruct (TrimSpace part) as [|c t] eqn:Et; [reflexivity|].
        assert (Hc : In (String c t) (collect (Split value ","%char))).
        { apply collect_In. exists part.
          split; [exact Hin|]. split; [symmetry; exact Et|discriminate]. }
        rewrite Hnil in Hc. destruct Hc.
      * intros Hall.
        destruct (collect (Split value ","%char)) as [|e es] eqn:Ec;
          [reflexivity|].
        assert (He : In e (collect (Split value ","%char)))
          by (rewrite Ec; left; reflexivity).
        apply collect_In in He as [part [Hin [-> Hne]]].
        exfalso. apply Hne. apply Hall. exact Hin.
Qed.

(** *** [parseInt] *)

Lemma decimal_uint (d : Decimal.uint) (n : Z) :
  decimal (NilEmpty.string_of_uint d) n = Some (value_onto d n).
Proof.
  revert n. induction d; intros n; simpl; try reflexivity; apply IHd.
Qed.

Lemma value_onto_acc (d : Decimal.uint) (acc : positive) :
  value_onto d (Z.pos acc) = Z.pos (Pos.of_uint_acc d acc).
Proof.
  revert acc. induction d; intros acc; simpl; try reflexivity;
    rewrite <- IHd; f_equal; lia.
Qed.

Lemma value_onto_uint (d : Decimal.uint) :
  value_onto d 0 = Z.of_N (Pos.of_uint d).
Proof.
  induction d; simpl; try reflexivity; try exact IHd;
    apply value_onto_acc.
Qed.

Lemma decimal_to_uint (p : positive) :
  decimal (NilEmpty.string_of_uint (Pos.to_uint p)) 0 = Some (Z.pos p).
Proof.
  rewrite decimal_uint, value_onto_uint, DecimalPos.Unsigned.of_to.
  reflexivity.
Qed.

(** A numeral starts with a digit. *)
Lemma uint_head (d : Decimal.uint) :
  d <> Decimal.Nil ->
  exists c rest,
    NilEmpty.string_of_uint d = String c rest /\ is_digit c = true.
Proof.
  destruct d; [congruence|..]; intros _; simpl; eauto.
Qed.

Lemma digit_no_sign (c : ascii) :
  is_digit c = true ->
  Ascii.eqb c "-"%char = false /\ Ascii.eqb c "+"%char = false.
Proof.
  intros H. split.
  - destruct (Ascii.eqb c "-"%char) eqn:E; [|reflexivity].
    apply Ascii.eqb_eq in E. subst. discriminate.
  - destruct (Ascii.eqb c "+"%char) eqn:E; [|reflexivity].
    apply Ascii.eqb_eq in E. subst. discriminate.
Qed.

Lemma Atoi_numeral (intSize n : Z) :
  Atoi intSize (numeral n)
  = if (- 2 ^ (intSize - 1) <=? n) && (n <=? 2 ^ (intSize - 1) - 1)
    then Some n else None.
Proof.
  unfold numeral. destruct n as [|p|p]; cbn [Z.to_int NilZero.string_of_int].
  - reflexivity.
  - unfold NilZero.string_of_uint.
    pose proof (DecimalPos.Unsigned.to_uint_nonnil p) as Hnil.
    pose proof (decimal_to_uint p) as Hd.
    destruct (uint_head _ Hnil) as [c [rest [Hs Hc]]].
    destruct (Pos.to_uint p) eqn:Eu; [congruence|..];
      rewrite Hs in *; unfold Atoi;
      destruct (digit_no_sign c Hc) as [-> ->]; cbn [orb];
      change (String.eqb (String c rest) "") with false; cbn iota;
      rewrite Hd; reflexivity.
  - unfold NilZero.string_of_uint.
    pose proof (DecimalPos.Unsigned.to_uint_nonnil p) as Hnil.
    pose proof (decimal_to_uint p) as Hd.
    destruct (uint_head _ Hnil) as [c [rest [Hs Hc]]].
    destruct (Pos.to_uint p) eqn:Eu; [congruence|..];
      rewrite Hs in *; unfold Atoi;
      change (Ascii.eqb "-" "-") with true; cbn [orb];
      change (String.eqb (String c rest) "") with false; cbn iota;
      rewrite Hd; reflexivity.
Qed.

Lemma numeral_nonempty (n : Z) : String.eqb (numeral n) "" = false.
Proof.
  unfold numeral. destruct n as [|p|p]; cbn [Z.to_int NilZero.string_of_int];
    try reflexivity.
  unfold NilZero.string_of_uint.
  destruct (uint_head _ (DecimalPos.Unsigned.to_uint_nonnil p))
    as [c [rest [Hs _]]].
  destruct (Pos.to_uint p); rewrite ?Hs; reflexivity.
Qed.

Lemma parseInt_numeral (intSize n defaultValue : Z) :
  parseInt intSize (numeral n) defaultValue
  = if (- 2 ^ (intSize - 1) <=? n) && (n <=? 2 ^ (intSize - 1) - 1)
    then n else defaultValue.
Proof.
  unfold parseInt. rewrite numeral_nonempty, Atoi_numeral.
  destruct (_ && _); reflexivity.
Qed.

Lemma decimal_digits (s : string) (n m : Z) :
  decimal s n = Some m -> all_digits s = true.
Proof.
  revert n. induction s as [|c s IH]; intros n; simpl; [reflexivity|].
  destruct (is_digit c); [|discriminate].
  intros H. exact (IH _ H).
Qed.

Lemma Atoi_accepts (intSize : Z) (s : string) (v : Z) :
  Atoi intSize s = Some v ->
  (exists sign digits,
      s = sign +:+ digits
      /\ (sign = "" \/ sign = "+" \/ sign = "-")
      /\ digits <> ""
      /\ all_digits digits = true)
  /\ - 2 ^ (intSize - 1) <= v <= 2 ^ (intSize - 1) - 1.
Proof.
  unfold Atoi. destruct s as [|s0 rest]; [discriminate|].
  set (digits := if Ascii.eqb s0 "-"%char || Ascii.eqb s0 "+"%char
                 then rest else String s0 rest).
  destruct (String.eqb digits "") eqn:Ee; [discriminate|].
  apply String.eqb_neq in Ee.
  destruct (decimal digits 0) as [un|] eqn:Ed; [|discriminate].
  destruct (_ && _) eqn:Er; [|discriminate].
  intros [= <-]. apply andb_true_iff in Er as [Hlo Hhi].
  apply Z.leb_le in Hlo, Hhi. split; [|lia].
  pose proof (decimal_digits _ _ _ Ed) as Hall.
  subst digits.
  destruct (Ascii.eqb s0 "-"%char) eqn:Em.
  { apply Ascii.eqb_eq in Em. subst s0.
    exists "-", rest. cbn [orb] in *. auto 6. }
  destruct (Ascii.eqb s0 "+"%char) eqn:Ep.
  { apply Ascii.eqb_eq in Ep. subst s0.
    exists "+", rest. cbn [orb] in *. auto 6. }
  exists "", (String s0 rest). cbn [orb] in *. auto 6.
Qed.

(** X25. Numbers in the configuration. [parseInt] reads the decimal
    numeral of every integer within the range of [int] back as that
    integer; for the numeral of an integer outside the range it yields
    the default. Whenever it yields something other than the default, the
    value was an optional sign followed by at least one digit and digits
    only, and the result is within the range of [int]; so an empty
    value, a value with a blank or any other byte in it, and a sign alone
    all yield the default. *)
Theorem X25_parse_int (intSize : Z) (value : string) (defaultValue : Z) :
  (forall n,
      - 2 ^ (intSize - 1) <= n <= 2 ^ (intSize - 1) - 1 ->
      parseInt intSize (numeral n) defaultValue = n)
  /\ (forall n,
        n < - 2 ^ (intSize - 1) \/ 2 ^ (intSize - 1) - 1 < n ->
        parseInt intSize (numeral n) defaultValue = defaultValue)
  /\ (parseInt intSize value defaultValue <> defaultValue ->
      (exists sign digits,
          value = sign +:+ digits
          /\ (sign = "" \/ sign = "+" \/ sign = "-")
          /\ digits <> ""
          /\ all_digits digits = true)
      /\ - 2 ^ (intSize - 1) <= parseInt intSize value defaultValue
         <= 2 ^ (intSize - 1) - 1).
Proof.
  split; [|split].
  - intros n Hn. rewrite parseInt_numeral.
    replace (- 2 ^ (intSize - 1) <=? n) with true
      by (symmetry; apply Z.leb_le; lia).
    replace (n <=? 2 ^ (intSize - 1) - 1) with true
      by (symmetry; apply Z.leb_le; lia).
    reflexivity.
  - intros n Hn. rewrite parseInt_numeral.
    destruct (_ && _) eqn:E; [|reflexivity].
    apply andb_true_iff in E as [Hlo Hhi].
    apply Z.leb_le in Hlo, Hhi. lia.
  - unfold parseInt.
    destruct (String.eqb value ""); [congruence|].
    destruct (Atoi intSize value) as [v|] eqn:E; [|congruence].
    intros _. exact (Atoi_accepts intSize value v E).
Qed.

(** *** [Load] *)

Section Loading.

Variable ParseDuration : string -> Result Duration.
Variable intSize : Z.

Lemma getEnv_unset (environ : Environ) (key defaultValue : string) :
  environ key = "" -> getEnv environ key defaultValue = defaultValue.
Proof. unfold getEnv. intros ->. reflexivity. Qed.

Lemma getEnv_set (environ : Environ) (key defaultValue : string) :
  environ key <> "" -> getEnv environ key defaultValue = environ key.
Proof.
  unfold getEnv. intros H.
  destruct (String.eqb (environ key) "") eqn:E; [|reflexivity].
  apply String.eqb_eq in E. contradiction.
Qed.

Lemma Load_cases (environ : Environ) :
  (environ "OTOMAX_WEBHOOK_URL" = ""
   /\ Load ParseDuration intSize environ
      = Err (New "OTOMAX_WEBHOOK_URL is required"))
  \/ (environ "OTOMAX_WEBHOOK_URL" <> ""
      /\ exists cfg,
           Load ParseDuration intSize environ = Ok cfg
           /\ Otomax.WebhookURL (Otomax cfg) = environ "OTOMAX_WEBHOOK_URL"
           /\ Otomax.RetryCount (Otomax cfg)
              = parseInt intSize
                  (getEnv environ "OTOMAX_WEBHOOK_RETRY_COUNT" "3") 3
           /\ APIKey (Security cfg) = environ "API_KEY"
           /\ WebhookWhitelist (MessageTracking cfg)
              = parseStringList (environ "WEBHOOK_WHITELIST_JIDS")).
Proof.
  unfold Load. cbn [Otomax Otomax.WebhookURL].
  assert (Hkey : forall key, getEnv environ key "" = environ key).
  { intros key. unfold getEnv.
    destruct (String.eqb (environ key) "") eqn:E; [|reflexivity].
    apply String.eqb_eq in E. congruence. }
  rewrite !Hkey.
  destruct (String.eqb (environ "OTOMAX_WEBHOOK_URL") "") eqn:E.
  - apply String.eqb_eq in E. left. split; [exact E|reflexivity].
  - apply String.eqb_neq in E. right. split; [exact E|].
    eexists. split; [reflexivity|]. cbn. auto.
Qed.

(** X26. Loading the configuration. [Load] fails exactly when
    OTOMAX_WEBHOOK_URL is unset or empty, whatever else is set. When it
    succeeds: with API_KEY unset or empty the API key check built from the
    configuration calls the handler for every request; with
    OTOMAX_WEBHOOK_RETRY_COUNT unset or empty the retry count is 3; and a
    negative retry count is taken as written, with which a delivery makes
    no request at all and reports failure after (count + 1) attempts. *)
Theorem X26_load (environ : Environ) :
  (is_ok (Load ParseDuration intSize environ) = false
   <-> environ "OTOMAX_WEBHOOK_URL" = "")
  /\ (forall cfg,
        Load ParseDuration intSize environ = Ok cfg ->
        Otomax.WebhookURL (Otomax cfg) = environ "OTOMAX_WEBHOOK_URL"
        /\ (environ "API_KEY" = "" ->
            forall (R A : Type) (header : R -> string) (next : R -> A) r,
              Middleware.invoked
                (Middleware.Authenticate (authMiddleware cfg) header next r)
              = true)
        /\ (environ "OTOMAX_WEBHOOK_RETRY_COUNT" = "" ->
            Otomax.RetryCount (Otomax cfg) = 3)
        /\ (forall n,
              - 2 ^ (intSize - 1) <= n < 0 ->
              environ "OTOMAX_WEBHOOK_RETRY_COUNT" = numeral n ->
              Otomax.RetryCount (Otomax cfg) = n
              /\ forall endpoint payload trxID,
                   Otomax.SendWebhook (Otomax cfg) endpoint payload trxID
                   = (Some (DeliveryFailedNil (n + 1)), []))).
Proof.
  destruct (Load_cases environ) as [[Hurl HL]|[Hurl [c [HL [Hu [Hr [Hk Hw]]]]]]];
    rewrite HL.
  - split; [split; [intros _; exact Hurl|reflexivity]|].
    intros cfg [=].
  - split; [split; [discriminate|contradiction]|].
    intros cfg [= <-]. split; [exact Hu|]. split; [|split].
    + intros Hkey R A header next r.
      unfold Middleware.Authenticate, authMiddleware.
      cbn [Middleware.apiKey]. rewrite Hk, Hkey. reflexivity.
    + intros Hunset. rewrite Hr, (getEnv_unset _ _ _ Hunset).
      change "3" with (numeral 3). rewrite parseInt_numeral.
      destruct (_ && _); reflexivity.
    + intros n Hn Hset.
      assert (Hc : Otomax.RetryCount (Otomax c) = n).
      { rewrite Hr, getEnv_set.
        - rewrite Hset, parseInt_numeral.
          replace (- 2 ^ (intSize - 1) <=? n) with true
            by (symmetry; apply Z.leb_le; lia).
          replace (n <=? 2 ^ (intSize - 1) - 1) with true
            by (symmetry; apply Z.leb_le; lia).
          reflexivity.
        - rewrite Hset. intros He.
          pose proof (numeral_nonempty n) as Hne.
          rewrite He in Hne. discriminate. }
      split; [exact Hc|].
      intros endpoint payload trxID.
      unfold Otomax.SendWebhook. rewrite Hc.
      replace (Z.to_nat (n + 1)) with O by lia. reflexivity.
Qed.

End Loading.

Example load_with_negative_retries :
  let environ := environment [("OTOMAX_WEBHOOK_URL", "http://otomax/hook");
                              ("OTOMAX_WEBHOOK_RETRY_COUNT", "-1")] in
  exists cfg,
    Load (fun _ => Err (New "unparsed")) 64 environ = Ok cfg
    /\ Otomax.RetryCount (Otomax cfg) = -1
    /\ TTL (MessageTracking cfg) = 24 * Hour
    /\ WebhookWhitelist (MessageTracking cfg) = [].
Proof. eexists. split; [reflexivity|]. repeat split. Qed.

End ConfigFacts.

(** ** The list of joined groups *)

Module GroupsFacts.
Import Go Model WhatsApp Groups.

Lemma convert_maps (c : GroupsClient) (groups : list JoinedGroup) :
  map InfoJID (fst (convert c groups))
  = map (fun g => JIDString (GroupJID g)) groups
  /\ map InfoName (fst (convert c groups)) = map GroupName groups
  /\ map InfoParticipants (fst (convert c groups))
     = map (fun g => Z.of_nat (length (Participants g))) groups
  /\ snd (convert c groups) = map GroupJID groups.
Proof.
  induction groups as [|g groups [IH1 [IH2 [IH3 IH4]]]]; simpl.
  - repeat split.
  - destruct (convert c groups) as [groupsList asked]. simpl in *.
    rewrite IH1, IH2, IH3, IH4.
    destruct (ClientGroupInfo c (GroupJID g)); repeat split.
Qed.

Lemma convert_details (c : GroupsClient) (groups : list JoinedGroup)
    (i : nat) (group : JoinedGroup) (entry : GroupInfo) :
  groups !! i = Some group ->
  fst (convert c groups) !! i = Some entry ->
  match ClientGroupInfo c (GroupJID group) with
  | Ok info => InfoTopic entry = Topic info
               /\ InfoIsAnnounce entry = IsAnnounce info
  | Err _ => InfoTopic entry = "" /\ InfoIsAnnounce entry = false
  end.
Proof.
  revert i. induction groups as [|g groups IH]; intros i; [discriminate|].
  simpl. destruct (convert c groups) as [groupsList asked]. simpl in *.
  destruct i as [|i]; simpl.
  - intros [= <-] [= <-].
    destruct (ClientGroupInfo c (GroupJID g)); split; reflexivity.
  - apply IH.
Qed.

(** X27. The groups route. The answer is 200 exactly when the client is
    connected and its list of joined groups could be read; otherwise it
    is 500 with an empty list and no group is looked up. A 200 answer has
    one entry for each joined group, in the order of the client's list,
    with that group's JID, name and number of participants; each group is
    looked up once, and a lookup that fails does not fail the request:
    the entry then has an empty topic and is not marked announce-only,
    while a lookup that succeeds supplies both. *)
Theorem X27_list_groups (c : GroupsClient) :
  (StatusCode (fst (fst (ListGroups c))) = 200
   <-> Connected c = true /\ is_ok (ClientJoinedGroups c) = true)
  /\ (StatusCode (fst (fst (ListGroups c))) <> 200 ->
      StatusCode (fst (fst (ListGroups c))) = 500
      /\ Data (fst (fst (ListGroups c))) = []
      /\ snd (fst (ListGroups c)) = [])
  /\ (forall groups,
        Connected c = true ->
        ClientJoinedGroups c = Ok groups ->
        map InfoJID (Data (fst (fst (ListGroups c))))
        = map (fun g => JIDString (GroupJID g)) groups
        /\ map InfoName (Data (fst (fst (ListGroups c))))
           = map GroupName groups
        /\ map InfoParticipants (Data (fst (fst (ListGroups c))))
           = map (fun g => Z.of_nat (length (Participants g))) groups
        /\ snd (fst (ListGroups c)) = map GroupJID groups
        /\ forall i group entry,
             groups !! i = Some group ->
             Data (fst (fst (ListGroups c))) !! i = Some entry ->
             match ClientGroupInfo c (GroupJID group) with
             | Ok info => InfoTopic entry = Topic info
                          /\ InfoIsAnnounce entry = IsAnnounce info
             | Err _ => InfoTopic entry = ""
                        /\ InfoIsAnnounce entry = false
             end).
Proof.
  unfold ListGroups, GetJoinedGroups.
  destruct (Connected c); cbn [negb].
  - destruct (ClientJoinedGroups c) as [groups|e].
    + pose proof (convert_maps c groups) as [H1 [H2 [H3 H4]]].
      pose proof (convert_details c groups) as Hd.
      destruct (convert c groups) as [groupsList asked]. simpl in *.
      split; [tauto|]. split; [congruence|].
      intros groups' _ [= <-]. auto 6.
    + simpl. split; [split; [discriminate|intros [_ H]; discriminate]|].
      split; [auto|]. intros groups _ [=].
  - simpl. split; [split; [discriminate|intros [H _]; discriminate]|].
    split; [auto|]. intros groups [=].
Qed.

End GroupsFacts.
